(** * T1_equity: the shareholder registry of [equity.py]

    A shallow embedding of the equity token (delegation graph, vote policy,
    weight engine, rights table and stock split) and the properties of its
    specification that were checked against it.

    Conventions.
    - Python [int] is [Z]; Python [float] is an IEEE-754 binary64 value,
      taken from the Standard Library's executable specification
      ([SpecFloat], precision 53, maximal exponent 1024, rounding to nearest
      even), so that products, quotients and comparisons are those of the
      interpreter.
    - A Python [dict] is an association list in insertion order with unique
      keys ([Dict.wf]); iteration follows the list.
    - A raised exception is a value of [exn]; a function that only reads the
      module globals returns a [result], a function that writes them returns
      the result together with the globals as they are when it returns or
      raises.
    - Arguments have their annotated types: [factor] is a [float], an
      [address] is a string or [None]. *)

From Stdlib Require Import ZArith List String Bool Lia.
From Stdlib Require Import SpecFloat.
Import ListNotations.

Local Open Scope string_scope.
Local Open Scope list_scope.
Local Open Scope Z_scope.

(** ** Exceptions and results *)

(** The exceptions the modelled code can raise. The source raises
    [ValueError] with four different messages; each message is a
    constructor. [OverflowError], [ZeroDivisionError] and the [ValueError]
    of [int(nan)] come from the interpreter's arithmetic;
    [InsufficientFunds] from the ledger library. *)
Inductive exn : Type :=
| NotEmitter (address : string)
| InvalidSplitFactor
| FalsyDelegate
| NotAShareholder (address : option string)
| OverflowError
| NanToInteger
| ZeroDivisionError
| InsufficientFunds.

Inductive result (A : Type) : Type :=
| Ok (a : A)
| Raise (e : exn).

Arguments Ok {A} a.
Arguments Raise {A} e.

Definition bind {A B : Type} (r : result A) (k : A -> result B) : result B :=
  match r with
  | Ok a => k a
  | Raise e => Raise e
  end.

Notation "x <- r ;; k" := (bind r (fun x => k))
  (at level 61, r at next level, right associativity).

(** [sum(f(x) for x in xs)]: the generator is consumed from the left and the
    first exception ends the sum. *)
Fixpoint sum_results {A : Type} (f : A -> result Z) (xs : list A) : result Z :=
  match xs with
  | [] => Ok 0
  | x :: xs' => v <- f x ;; s <- sum_results f xs' ;; Ok (v + s)
  end.

Definition sum_list (l : list Z) : Z := fold_right Z.add 0 l.

(** ** Python dictionaries *)

Module Dict.

Section WithValue.

Context {V : Type}.

Definition t : Type := list (string * V).

Fixpoint get (d : t) (k : string) : option V :=
  match d with
  | [] => None
  | (k', v) :: d' => if String.eqb k k' then Some v else get d' k
  end.

(** [k in d] *)
Definition mem (d : t) (k : string) : bool :=
  match get d k with Some _ => true | None => false end.

(** [d.get(k, default)] *)
Definition get_default (d : t) (k : string) (default : V) : V :=
  match get d k with Some v => v | None => default end.

(** [d[k] = v]: an existing key keeps its place, a new key goes last. *)
Fixpoint set (d : t) (k : string) (v : V) : t :=
  match d with
  | [] => [(k, v)]
  | (k', v') :: d' =>
      if String.eqb k k' then (k', v) :: d' else (k', v') :: set d' k v
  end.

(** [d.pop(k, None)] *)
Fixpoint remove (d : t) (k : string) : t :=
  match d with
  | [] => []
  | (k', v') :: d' =>
      if String.eqb k k' then d' else (k', v') :: remove d' k
  end.

Definition keys (d : t) : list string := map fst d.

Definition values (d : t) : list V := map snd d.

(** [len(d)] *)
Definition len (d : t) : Z := Z.of_nat (List.length d).

(** A dictionary holds a key once. *)
Definition wf (d : t) : Prop := NoDup (keys d).

End WithValue.

Arguments t V : clear implicits.

End Dict.

(** ** Python floats *)

Module PyFloat.

Definition prec : Z := 53.
Definition emax : Z := 1024.

Definition float : Type := spec_float.

Definition zero : float := S754_zero false.

(** [float(z)] as the interpreter converts an [int] operand: the nearest
    binary64, ties to even; [OverflowError] when [z] is too large. *)
Definition of_int (z : Z) : result float :=
  match binary_normalize prec emax z 0 false with
  | S754_infinity _ => Raise OverflowError
  | x => Ok x
  end.

(** [int * float]: the [int] operand is converted first. *)
Definition mul_int (b : Z) (f : float) : result float :=
  x <- of_int b ;; Ok (SFmul prec emax x f).

(** The integer part of a finite value, towards zero. *)
Definition trunc_finite (s : bool) (m : positive) (e : Z) : Z :=
  let a := match e with
           | Zneg p => Z.quot (Zpos m) (2 ^ Zpos p)
           | _ => Zpos m * 2 ^ e
           end in
  if s then - a else a.

(** [int(x)] *)
Definition to_int (x : float) : result Z :=
  match x with
  | S754_zero _ => Ok 0
  | S754_finite s m e => Ok (trunc_finite s m e)
  | S754_infinity _ => Raise OverflowError
  | S754_nan => Raise NanToInteger
  end.

(** The mathematical floor of a finite value (none for infinities and
    NaN). *)
Definition floor (x : float) : option Z :=
  match x with
  | S754_zero _ => Some 0
  | S754_finite s m e =>
      Some (match e with
            | Zneg p => (if s then Zneg m else Zpos m) / 2 ^ Zpos p
            | _ => (if s then Zneg m else Zpos m) * 2 ^ e
            end)
  | _ => None
  end.

(** [a / b] on two [int]s: the correctly rounded quotient. *)
Definition truediv_int (a b : Z) : result float :=
  match b, a with
  | Z0, _ => Raise ZeroDivisionError
  | _, Z0 => Ok (S754_zero (b <? 0))
  | _, _ =>
      match SFdiv prec emax
              (S754_finite (a <? 0) (Z.to_pos (Z.abs a)) 0)
              (S754_finite (b <? 0) (Z.to_pos (Z.abs b)) 0) with
      | S754_infinity _ => Raise OverflowError
      | q => Ok q
      end
  end.

(** [x <= y], [x < y]; a comparison with NaN is false. *)
Definition leb (x y : float) : bool := SFleb x y.
Definition ltb (x y : float) : bool := SFltb x y.

(** The literals of the source, as the nearest binary64 values. *)
Definition lit_0_05 : float := S754_finite false 7205759403792794 (-57).
Definition lit_0_1 : float := S754_finite false 7205759403792794 (-56).
Definition lit_0_15 : float := S754_finite false 5404319552844595 (-55).
Definition lit_0_25 : float := S754_finite false 4503599627370496 (-54).
Definition lit_0_5 : float := S754_finite false 4503599627370496 (-53).

End PyFloat.

(** ** The ledger library

    [pikciotok.base] and [pikciotok.context] are a library the token
    imports; its text is not part of the repository. *)

Module Base.

(** Modelled from the spec: [base.Balances(balance_of).get(address)], the
    ledger's balance query, which "treats absent address as balance 0". An
    omitted address ([None]) is no key of the ledger. *)
Definition Balances_get (balance_of : Dict.t Z) (address : option string) : Z :=
  match address with
  | Some a => Dict.get_default balance_of a 0
  | None => 0
  end.

(** Modelled from the spec: how the ledger stores a balance under
    [missing_balance_means_zero = True], "holder records are pruned on
    balance reaching zero". *)
Definition Balances_set (balance_of : Dict.t Z) (address : string) (amount : Z)
  : Dict.t Z :=
  if amount =? 0 then Dict.remove balance_of address
  else Dict.set balance_of address amount.

(** Modelled from the spec: [base.transfer(balances, from, to, amount) ->
    success], failing with [InsufficientFunds]. *)
Definition transfer (balance_of : Dict.t Z) (from_address to_address : string)
  (amount : Z) : result bool * Dict.t Z :=
  let available := Balances_get balance_of (Some from_address) in
  if available <? amount then (Raise InsufficientFunds, balance_of)
  else
    let b1 := Balances_set balance_of from_address (available - amount) in
    let b2 := Balances_set b1 to_address
                (Balances_get b1 (Some to_address) + amount) in
    (Ok true, b2).

End Base.

(** ** The token *)

Module Equity.

Import PyFloat.

Definition _VOTE_POLICY_ODOV : Z := 1.
Definition _VOTE_POLICY_OPOV : Z := 2.

Definition decimals : Z := 0.

(** [_SHAREHOLDERS_RIGHTS], in the order the literal lists its keys. *)
Definition _SHAREHOLDERS_RIGHTS : list (float * list string) :=
  [ (lit_0_05,
     [ "apply to court to prevent the conversion of a public company into a private company";
       "call a general meeting";
       "require the circulation of a written resolution to shareholders (in private companies)";
       "require the passing of a resolution at an annual general meeting (AGM) of a public company." ]);
    (lit_0_1,
     [ "call for a poll vote on a resolution";
       "right to prevent a meeting being held on short notice (in private companies)." ]);
    (lit_0_15,
     [ "apply to the court to cancel a variation of class rights, provided such shareholders did not consent to, or vote in favour of, the variation." ]);
    (lit_0_25,
     [ "prevent the passing of a special resolution" ]) ].

(** The notifications [base.minted] and [base.burnt]. *)
Inductive event : Type :=
| Minted (sender : string) (amount new_supply : Z)
| Burnt (sender : string) (amount new_supply : Z).

(** The module globals, the caller [context.sender] and the notifications
    raised so far (latest first). *)
Record state : Type := mkState {
  name : string;
  symbol : string;
  total_supply : Z;
  balance_of : Dict.t Z;
  vote_mode : Z;
  emitter : string;
  delegations : Dict.t string;
  sender : string;
  events : list event
}.

Definition set_balance_of (st : state) (b : Dict.t Z) : state :=
  mkState (name st) (symbol st) (total_supply st) b (vote_mode st)
    (emitter st) (delegations st) (sender st) (events st).

Definition set_total_supply (st : state) (n : Z) : state :=
  mkState (name st) (symbol st) n (balance_of st) (vote_mode st)
    (emitter st) (delegations st) (sender st) (events st).

Definition set_mode (st : state) (m : Z) : state :=
  mkState (name st) (symbol st) (total_supply st) (balance_of st) m
    (emitter st) (delegations st) (sender st) (events st).

Definition set_delegations (st : state) (d : Dict.t string) : state :=
  mkState (name st) (symbol st) (total_supply st) (balance_of st)
    (vote_mode st) (emitter st) d (sender st) (events st).

Definition set_sender (st : state) (s : string) : state :=
  mkState (name st) (symbol st) (total_supply st) (balance_of st)
    (vote_mode st) (emitter st) (delegations st) s (events st).

Definition emit (st : state) (e : event) : state :=
  mkState (name st) (symbol st) (total_supply st) (balance_of st)
    (vote_mode st) (emitter st) (delegations st) (sender st) (e :: events st).

(** The globals when the module is loaded, called by [caller]. *)
Definition loaded (caller : string) : state :=
  mkState "" "" 0 [] _VOTE_POLICY_ODOV "" [] caller [].

(** [bool(s)] of a string *)
Definition truthy (s : string) : bool :=
  match s with EmptyString => false | _ => true end.

(** [address or context.sender]: an omitted and an empty address both give
    the caller. *)
Definition or_sender (st : state) (address : option string) : string :=
  match address with
  | Some a => if truthy a then a else sender st
  | None => sender st
  end.

(** [value == address] between a stored string and an optional argument. *)
Definition eq_address (value : string) (address : option string) : bool :=
  match address with
  | Some a => String.eqb value a
  | None => false
  end.

Definition init (supply : Z) (name_ symbol_ : string) (st : state) : state :=
  let amount := supply * 10 ^ decimals in
  mkState name_ symbol_ amount
    (Dict.set (balance_of st) (sender st) amount)
    (vote_mode st) (sender st) (delegations st) (sender st) (events st).

Definition _assert_is_emitter (st : state) (address : string) : result unit :=
  if String.eqb address (emitter st) then Ok tt else Raise (NotEmitter address).

Definition transfer (to_address : string) (amount : Z) (st : state)
  : result bool * state :=
  let (r, b) := Base.transfer (balance_of st) (sender st) to_address amount in
  (r, set_balance_of st b).

(** [int(balance * factor)] *)
Definition scaled (factor : float) (balance : Z) : result Z :=
  p <- mul_int balance factor ;; to_int p.

(** The loop [for account in balance_of: balance_of[account] = int(...)]:
    the ledger as the loop leaves it, and the exception that ended it, if
    any. Every [account] read is a key of the ledger, so the default of the
    lookup is never used. *)
Fixpoint rescale (accounts : list string) (factor : float) (b : Dict.t Z)
  : Dict.t Z * option exn :=
  match accounts with
  | [] => (b, None)
  | account :: rest =>
      match scaled factor (Dict.get_default b account 0) with
      | Ok n => rescale rest factor (Dict.set b account n)
      | Raise e => (b, Some e)
      end
  end.

(** [sum(balance_of[account] for account in balance_of)] *)
Definition ledger_sum (b : Dict.t Z) : Z :=
  sum_list (map (fun account => Dict.get_default b account 0) (Dict.keys b)).

Definition split_stock (factor : float) (st : state) : result Z * state :=
  match _assert_is_emitter st (sender st) with
  | Raise e => (Raise e, st)
  | Ok _ =>
      if leb factor zero then (Raise InvalidSplitFactor, st)
      else
        match rescale (Dict.keys (balance_of st)) factor (balance_of st) with
        | (b, Some e) => (Raise e, set_balance_of st b)
        | (b, None) =>
            let st1 := set_balance_of st b in
            let new_total_supply := ledger_sum b in
            let delta_supply := new_total_supply - total_supply st1 in
            let st2 :=
              if 0 <? delta_supply
              then emit st1 (Minted (emitter st1) delta_supply new_total_supply)
              else if delta_supply <? 0
              then emit st1 (Burnt (emitter st1) (- delta_supply) new_total_supply)
              else st1 in
            (Ok new_total_supply, set_total_supply st2 new_total_supply)
        end
  end.

Definition get_balance (st : state) (address : string) : Z :=
  Base.Balances_get (balance_of st) (Some address).

Definition set_vote_mode (mode : Z) (st : state) : result Z * state :=
  match _assert_is_emitter st (sender st) with
  | Raise e => (Raise e, st)
  | Ok _ => (Ok (vote_mode st), set_mode st mode)
  end.

Definition get_vote_mode (st : state) : Z := vote_mode st.

Definition get_delegate (st : state) (address : option string) : string :=
  Dict.get_default (delegations st) (or_sender st address) "".

Definition set_delegate (to_address : string) (st : state)
  : result string * state :=
  if truthy to_address then
    (Ok (get_delegate st None),
     set_delegations st (Dict.set (delegations st) (sender st) to_address))
  else (Raise FalsyDelegate, st).

Definition remove_delegate (st : state) : result string * state :=
  let previous_delegate := get_delegate st None in
  (Ok previous_delegate,
   if truthy previous_delegate
   then set_delegations st (Dict.remove (delegations st) (sender st))
   else st).

Definition get_total_shareholders (st : state) : Z := Dict.len (balance_of st).

Definition is_shareholder (st : state) (address : option string) : bool :=
  Dict.mem (balance_of st) (or_sender st address).

Definition _assert_is_shareholder (st : state) (address : option string)
  : result unit :=
  if is_shareholder st address then Ok tt else Raise (NotAShareholder address).

Definition is_delegating (st : state) (address : option string) : bool :=
  truthy (get_delegate st address).

(** The generator [addr for addr in delegations if delegations[addr] ==
    address]. *)
Definition delegators_of (st : state) (address : option string) : list string :=
  filter
    (fun addr => eq_address (Dict.get_default (delegations st) addr "") address)
    (Dict.keys (delegations st)).

Definition get_delegators (st : state) (address : option string)
  : result (list string) :=
  _ <- _assert_is_shareholder st address ;;
  Ok (delegators_of st address).

Definition get_organic_shares (st : state) (address : option string) : result Z :=
  _ <- _assert_is_shareholder st address ;;
  Ok (Base.Balances_get (balance_of st) address).

Definition get_delegated_shares (st : state) (address : option string)
  : result Z :=
  ds <- get_delegators st address ;;
  sum_results (fun addr => get_organic_shares st (Some addr)) ds.

Definition get_shares (st : state) (address : option string) : result Z :=
  _ <- _assert_is_shareholder st address ;;
  if negb (is_delegating st address) then
    d <- get_delegated_shares st address ;;
    o <- get_organic_shares st address ;;
    Ok (d + o)
  else Ok 0.

Definition get_total_votes (st : state) : Z :=
  if vote_mode st =? _VOTE_POLICY_ODOV then total_supply st
  else Dict.len (balance_of st).

Definition get_organic_votes (st : state) (address : option string) : result Z :=
  if vote_mode st =? _VOTE_POLICY_ODOV then get_shares st address else Ok 1.

Definition get_delegated_votes (st : state) (address : option string)
  : result Z :=
  ds <- get_delegators st address ;;
  sum_results (fun addr => get_organic_votes st (Some addr)) ds.

Definition get_votes (st : state) (address : option string) : result Z :=
  if negb (is_delegating st address) then
    d <- get_delegated_votes st address ;;
    o <- get_organic_votes st address ;;
    Ok (d + o)
  else Ok 0.

Definition get_organic_weight (st : state) (address : option string)
  : result float :=
  v <- get_organic_votes st address ;; truediv_int v (get_total_votes st).

Definition get_delegated_weight (st : state) (address : option string)
  : result float :=
  v <- get_delegated_votes st address ;; truediv_int v (get_total_votes st).

Definition get_weight (st : state) (address : option string) : result float :=
  v <- get_votes st address ;; truediv_int v (get_total_votes st).

Definition is_organic_majority (st : state) (address : option string)
  : result bool :=
  w <- get_organic_weight st address ;; Ok (ltb lit_0_5 w).

Definition is_majority (st : state) (address : option string) : result bool :=
  w <- get_weight st address ;; Ok (ltb lit_0_5 w).

(** [itertools.chain.from_iterable] over the brackets the filter keeps. *)
Fixpoint chain_rights (table : list (float * list string)) (percentage : float)
  : list string :=
  match table with
  | [] => []
  | (min_weight, rights) :: table' =>
      if leb min_weight percentage
      then rights ++ chain_rights table' percentage
      else chain_rights table' percentage
  end.

Definition _get_rights (percentage : float) : list string :=
  chain_rights _SHAREHOLDERS_RIGHTS percentage.

Definition get_organic_rights (st : state) (address : option string)
  : result (list string) :=
  w <- get_organic_weight st address ;; Ok (_get_rights w).

Definition get_rights (st : state) (address : option string)
  : result (list string) :=
  w <- get_weight st address ;; Ok (_get_rights w).

End Equity.

(** ** The specification's quantities *)

Module Spec.

Import PyFloat Equity.

(** A current shareholder: an address (a non-empty string, an empty one
    standing for an omitted argument throughout the source) that the ledger
    holds. *)
Definition shareholder (st : state) (a : string) : Prop :=
  a <> "" /\ Dict.mem (balance_of st) a = true.

(** The raw ledger balance of [a]. *)
Definition raw_balance (st : state) (a : string) : Z := get_balance st a.

(** The direct delegators of [a]: the delegation edges that point to [a]. *)
Definition direct_delegators (st : state) (a : string) : list string :=
  delegators_of st (Some a).

(** Organic votes as the specification defines them: the raw balance under
    the weight-proportional policy, 1 under one-holder-one-vote. *)
Definition organic_votes (st : state) (a : string) : Z :=
  if vote_mode st =? _VOTE_POLICY_ODOV then raw_balance st a else 1.

(** Delegated votes as the specification defines them: the organic votes of
    the direct delegators, summed. *)
Definition delegated_votes (st : state) (a : string) : Z :=
  sum_list (map (organic_votes st) (direct_delegators st a)).

(** Effective votes and shares of [a] as the specification states them. *)
Definition effective (st : state) (a : string) : Prop :=
  if is_delegating st (Some a) then
    get_votes st (Some a) = Ok 0 /\ get_shares st (Some a) = Ok 0
  else
    get_votes st (Some a) = Ok (organic_votes st a + delegated_votes st a) /\
    get_shares st (Some a) =
      Ok (raw_balance st a
          + sum_list (map (raw_balance st) (direct_delegators st a))).

(** [floor(old_balance × f)], the product being the binary64 one; none when
    the product is not finite. *)
Definition floor_scaled (f : float) (old_balance : Z) : option Z :=
  match of_int old_balance with
  | Ok x => floor (SFmul prec emax x f)
  | Raise _ => None
  end.

(** The balance the specification gives a holder after a split by [f]. *)
Definition floored (f : float) (entry : string * Z) : string * Z :=
  (fst entry,
   match floor_scaled f (snd entry) with Some n => n | None => 0 end).

(** [x] is no number, or carries the sign [s]. *)
Definition sign_is (s : bool) (x : float) : Prop :=
  match x with
  | S754_zero s' | S754_infinity s' | S754_finite s' _ _ => s' = s
  | S754_nan => True
  end.

(** What a stock split by [f] achieves, as the specification states it. *)
Definition split_reconciled (st : state) (f : float) : Prop :=
  exists (t : Z) (st' : state),
    split_stock f st = (Ok t, st') /\
    Forall2 (fun old new => fst new = fst old /\
                            floor_scaled f (snd old) = Some (snd new))
      (balance_of st) (balance_of st') /\
    t = sum_list (Dict.values (balance_of st')) /\
    total_supply st' = sum_list (Dict.values (balance_of st')).

(** The rights the specification grants a weight: the right-lists of the
    brackets whose threshold is at most the weight, concatenated. *)
Definition rights_for (w : float) : list string :=
  List.concat (map snd (filter (fun bracket => leb (fst bracket) w)
                     _SHAREHOLDERS_RIGHTS)).

(** Every threshold of a table is below the thresholds that follow it. *)
Fixpoint ascending (table : list (float * list string)) : bool :=
  match table with
  | [] => true
  | bracket :: table' =>
      forallb (fun later => ltb (fst bracket) (fst later)) table'
      && ascending table'
  end.

(** The order of two positive finite values, by exponent and then by
    mantissa. *)
Definition lex_le (e1 : Z) (m1 : positive) (e2 : Z) (m2 : positive) : Prop :=
  e1 < e2 \/ (e1 = e2 /\ (m1 <= m2)%positive).

Definition lex_lt (e1 : Z) (m1 : positive) (e2 : Z) (m2 : positive) : Prop :=
  e1 < e2 \/ (e1 = e2 /\ (m1 < m2)%positive).

(** [l1] is a prefix of [l2]. *)
Definition prefix (l1 l2 : list string) : Prop := exists rest, l2 = l1 ++ rest.

End Spec.

(** ** Registries used as examples *)

Module Examples.

Import PyFloat Equity.

(** Two holders, bob delegating to alice; alice is the emitter and the
    caller. *)
Definition delegated : state :=
  mkState "T" "TKN" 15 [("alice", 10); ("bob", 5)] _VOTE_POLICY_ODOV
    "alice" [("bob", "alice")] "alice" [].

(** One holder, and a delegation from eve, who holds nothing. *)
Definition dangling : state :=
  mkState "T" "TKN" 10 [("alice", 10)] _VOTE_POLICY_ODOV
    "alice" [("eve", "alice")] "alice" [].

(** Two holders, one of them with a single share. *)
Definition small_holder : state :=
  mkState "T" "TKN" 11 [("Pikcio SA", 10); ("John Doe", 1)] _VOTE_POLICY_OPOV
    "Pikcio SA" [] "Pikcio SA" [].

(** Two holders and no delegation. *)
Definition two_holders : state :=
  mkState "T" "TKN" 3 [("A", 1); ("B", 2)] _VOTE_POLICY_ODOV "A" [] "A" [].

(** 0.5, 1.5, -1.0 and 2 ** 1023 as binary64 values. *)
Definition half : float := lit_0_5.
Definition one_and_a_half : float := S754_finite false 6755399441055744 (-52).
Definition minus_one : float := S754_finite true 4503599627370496 (-52).
Definition two_pow_1023 : float := S754_finite false 4503599627370496 971.

(** 0.7 and 0.29 as binary64 values. *)
Definition seven_tenths : float := S754_finite false 6305039478318694 (-53).
Definition twenty_nine_hundredths : float :=
  S754_finite false 5224175567749775 (-54).

(** The scenario of [test.py]: the emitter creates 13,000,000 shares and
    transfers 1,200,000 of them to John. *)
Definition created : state :=
  init 13000000 "Pikciotronics Ltd" "PKT" (loaded "Pikcio SA").

Definition transferred : state :=
  snd (transfer "John Doe" (1200000 * 10 ^ decimals) created).

(** The same registry after [set_vote_mode(_VOTE_POLICY_OPOV)]. *)
Definition one_person_one_vote : state :=
  snd (set_vote_mode _VOTE_POLICY_OPOV transferred).

End Examples.

(** ** The rest of the token

    The accessors, the emitter-only operations that go through the ledger
    library, and the dividend rate. *)

Module Admin.

Import PyFloat Equity.

Definition get_name (st : state) : string := name st.

Definition get_symbol (st : state) : string := symbol st.

Definition get_decimals (st : state) : Z := decimals.

Definition get_total_supply (st : state) : Z := total_supply st.

(** [mint] and [burn] hand the ledger and the total supply to the library
    after their own check. A library call may rewrite the dictionary it is
    given and raise notifications; it returns the new total supply or
    raises. The two library functions are left open. *)
Definition library_call : Type :=
  Dict.t Z -> Z -> string -> Z -> list event
  -> result Z * Dict.t Z * list event.

Section WithLibrary.

Variable base_mint base_burn : library_call.

Definition through (call : library_call) (amount : Z) (st : state)
  : result Z * state :=
  match _assert_is_emitter st (sender st) with
  | Raise e => (Raise e, st)
  | Ok _ =>
      match call (balance_of st) (total_supply st) (sender st) amount
              (events st) with
      | (r, b, evs) =>
          let st1 :=
            mkState (name st) (symbol st) (total_supply st) b (vote_mode st)
              (emitter st) (delegations st) (sender st) evs in
          match r with
          | Ok t => (Ok t, set_total_supply st1 t)
          | Raise e => (Raise e, st1)
          end
      end
  end.

Definition mint (amount : Z) (st : state) : result Z * state :=
  through base_mint amount st.

Definition burn (amount : Z) (st : state) : result Z * state :=
  through base_burn amount st.

End WithLibrary.

(** The globals of the token together with [dividend]. *)
Record registry : Type := mkRegistry {
  token : state;
  dividend : float
}.

Definition set_dividend (dividend_ : float) (g : registry)
  : result float * registry :=
  match _assert_is_emitter (token g) (sender (token g)) with
  | Raise e => (Raise e, g)
  | Ok _ => (Ok (dividend g), mkRegistry (token g) dividend_)
  end.

Definition get_dividend (g : registry) : float := dividend g.

End Admin.

(** ** A split in progress *)

Module Split.

Import Equity.

(** An account before and after the loop of [split_stock] has rewritten
    it. *)
Definition rewritten (f : PyFloat.float) (old new : string * Z) : Prop :=
  fst new = fst old /\ scaled f (snd old) = Ok (snd new).

End Split.

(** ** Delegation in one level *)

Module Delegation.

Import Equity.

(** A registry where delegation has one level: ledger and delegations hold
    each key once, every holder has a non-empty address, and every edge
    goes from a holder to a holder that does not delegate. *)
Definition one_level (st : state) : Prop :=
  Dict.wf (balance_of st) /\
  Dict.wf (delegations st) /\
  Forall (fun a => a <> "") (Dict.keys (balance_of st)) /\
  Forall (fun edge =>
            In (fst edge) (Dict.keys (balance_of st)) /\
            In (snd edge) (Dict.keys (balance_of st)) /\
            ~ In (snd edge) (Dict.keys (delegations st)))
    (delegations st).

(** The shares of one holder in a one-level registry, by weight [f]: none
    when it delegates, its own and those of its delegators otherwise. *)
Definition held (f : string -> Z) (delegating : string -> bool)
  (delegate : string -> string) (delegators : list string) (a : string) : Z :=
  if delegating a then 0
  else f a + sum_list (map f (filter (fun d => String.eqb (delegate d) a)
                                delegators)).

End Delegation.

(** ** More example registries *)

Module MoreExamples.

Import Equity Examples.

(** bob delegates to alice while eve, who holds nothing, delegates to
    bob. *)
Definition chained : state :=
  mkState "T" "TKN" 15 [("alice", 10); ("bob", 5)] _VOTE_POLICY_ODOV
    "alice" [("bob", "alice"); ("eve", "bob")] "alice" [].

(** alice the only holder, eve delegating to her, under one person one
    vote. *)
Definition dangling_opov : state := set_mode dangling _VOTE_POLICY_OPOV.

(** bob, then mallory and eve, who hold nothing, delegate to alice. *)
Definition two_dangling : state :=
  mkState "T" "TKN" 15 [("alice", 10); ("bob", 5)] _VOTE_POLICY_ODOV
    "alice" [("bob", "alice"); ("mallory", "alice"); ("eve", "alice")]
    "alice" [].

End MoreExamples.

(** * Properties *)

Import PyFloat Equity Spec Examples MoreExamples.

(** ** The example registries *)

(** Each example registry is reached through the token's own operations:
    creation, transfers, a delegation (by bob, by eve), a change of
    policy; the caller is then set back to the emitter. *)
Lemma examples_are_reachable :
  delegated
  = set_sender
      (snd (set_delegate "alice"
              (set_sender
                 (snd (transfer "bob" 5 (init 15 "T" "TKN" (loaded "alice"))))
                 "bob")))
      "alice" /\
  dangling
  = set_sender
      (snd (set_delegate "alice"
              (set_sender (init 10 "T" "TKN" (loaded "alice")) "eve")))
      "alice" /\
  small_holder
  = snd (set_vote_mode _VOTE_POLICY_OPOV
           (snd (transfer "John Doe" 1
                   (init 11 "T" "TKN" (loaded "Pikcio SA"))))) /\
  two_holders = snd (transfer "B" 2 (init 3 "T" "TKN" (loaded "A"))).
Proof. repeat split; reflexivity. Qed.

(** ** The float literals *)

(** Each literal of the source is the correctly rounded quotient of its
    decimal numerator and denominator. *)
Lemma literals_are_nearest :
  truediv_int 5 100 = Ok lit_0_05 /\
  truediv_int 1 10 = Ok lit_0_1 /\
  truediv_int 15 100 = Ok lit_0_15 /\
  truediv_int 1 4 = Ok lit_0_25 /\
  truediv_int 1 2 = Ok lit_0_5.
Proof. repeat split; reflexivity. Qed.

(** ** Organic and delegated votes *)

(** Under the weight-proportional policy [get_organic_votes] is
    [get_shares], the effective shares. *)
Lemma get_organic_votes_odov (st : state) (address : option string) :
  vote_mode st = _VOTE_POLICY_ODOV ->
  get_organic_votes st address = get_shares st address.
Proof.
  intros Hmode. unfold get_organic_votes. rewrite Hmode. reflexivity.
Qed.

(** C1. The organic votes of a shareholder are meant to be its raw balance
    under the weight-proportional policy, whatever its delegations. With bob
    (5 shares) delegating to alice (10 shares), the code gives alice 15
    organic votes and bob none, while their organic shares are 10 and 5. *)
Theorem get_organic_votes_follows_delegation :
  vote_mode delegated = _VOTE_POLICY_ODOV /\
  get_organic_shares delegated (Some "alice") = Ok 10 /\
  get_organic_votes delegated (Some "alice") = Ok 15 /\
  get_organic_shares delegated (Some "bob") = Ok 5 /\
  get_organic_votes delegated (Some "bob") = Ok 0.
Proof. repeat split; reflexivity. Qed.

(** C2. The delegated votes of a shareholder are meant to be the sum of its
    direct delegators' raw balances under the weight-proportional policy.
    With bob (5 shares) the only delegator of alice, the code gives alice 0
    delegated votes, and 5 delegated shares. *)
Theorem get_delegated_votes_of_delegators_vanish :
  vote_mode delegated = _VOTE_POLICY_ODOV /\
  get_delegators delegated (Some "alice") = Ok ["bob"] /\
  raw_balance delegated "bob" = 5 /\
  delegated_votes delegated "alice" = 5 /\
  get_delegated_shares delegated (Some "alice") = Ok 5 /\
  get_delegated_votes delegated (Some "alice") = Ok 0.
Proof. repeat split; reflexivity. Qed.

(** ** Omitted addresses *)

(** C6. A query with its address omitted is meant to answer for the caller.
    Called by alice, who holds 10 shares and has bob as delegator,
    [get_delegators()] is empty and [get_organic_shares()] is 0, while the
    same queries with alice's address give bob and 10. *)
Theorem omitted_address_is_not_the_sender :
  sender delegated = "alice" /\
  is_shareholder delegated None = true /\
  get_delegators delegated None = Ok [] /\
  get_delegators delegated (Some "alice") = Ok ["bob"] /\
  get_organic_shares delegated None = Ok 0 /\
  get_organic_shares delegated (Some "alice") = Ok 10.
Proof. repeat split; reflexivity. Qed.

(** ** The one-holder-one-vote policy *)

Lemma truediv_int_raises (a b : Z) (e : exn) :
  truediv_int a b = Raise e -> e = ZeroDivisionError \/ e = OverflowError.
Proof.
  unfold truediv_int.
  destruct b, a; try (intros H; inversion H; auto; fail);
    match goal with
    | |- context [SFdiv ?p ?m ?x ?y] => destruct (SFdiv p m x y)
    end; intros H; inversion H; auto.
Qed.

(** C10. Under one-holder-one-vote [get_organic_votes] answers 1 for every
    address, shareholder or not, given or omitted; the organic weight is
    then 1 divided by the number of shareholders, and never fails for want
    of a shareholder. *)
Theorem get_organic_votes_opov (st : state) (address : option string) :
  vote_mode st = _VOTE_POLICY_OPOV ->
  get_organic_votes st address = Ok 1 /\
  get_organic_weight st address = truediv_int 1 (get_total_shareholders st) /\
  forall who, get_organic_weight st address <> Raise (NotAShareholder who).
Proof.
  intros Hmode.
  assert (Hv : get_organic_votes st address = Ok 1).
  { unfold get_organic_votes. rewrite Hmode. reflexivity. }
  assert (Hw : get_organic_weight st address
               = truediv_int 1 (get_total_shareholders st)).
  { unfold get_organic_weight, get_total_votes. rewrite Hv, Hmode. reflexivity. }
  repeat split; trivial.
  intros who Hraise. rewrite Hw in Hraise.
  apply truediv_int_raises in Hraise. destruct Hraise; discriminate.
Qed.

(** carol holds nothing in the registry of [test.py]; her organic weight
    under one-holder-one-vote is 1 / 2. *)
Lemma get_organic_votes_opov_witness :
  vote_mode one_person_one_vote = _VOTE_POLICY_OPOV /\
  is_shareholder one_person_one_vote (Some "carol") = false /\
  get_organic_votes one_person_one_vote (Some "carol") = Ok 1 /\
  get_organic_weight one_person_one_vote (Some "carol") = Ok lit_0_5.
Proof.
  split; [reflexivity | split; [reflexivity | ]].
  destruct (get_organic_votes_opov one_person_one_vote (Some "carol")
              eq_refl) as [Hv [Hw _]].
  split; [exact Hv | rewrite Hw; reflexivity].
Defined.

(** ** Stock split: rejected factors *)

(** C9. A split by a factor [f <= 0] asked by the emitter raises the
    invalid-factor error and leaves the registry as it was: balances, total
    supply and everything else. *)
Theorem split_stock_rejects_nonpositive (st : state) (f : float) :
  sender st = emitter st ->
  leb f zero = true ->
  split_stock f st = (Raise InvalidSplitFactor, st).
Proof.
  intros Hemitter Hf. unfold split_stock, _assert_is_emitter.
  rewrite Hemitter, String.eqb_refl, Hf. reflexivity.
Qed.

(** [split_stock(0)] and [split_stock(-1)]. *)
Lemma split_stock_rejects_nonpositive_witness :
  (sender small_holder = emitter small_holder /\ leb zero zero = true /\
   split_stock zero small_holder = (Raise InvalidSplitFactor, small_holder)) /\
  (leb minus_one zero = true /\
   split_stock minus_one small_holder
   = (Raise InvalidSplitFactor, small_holder)).
Proof.
  split.
  - split; [reflexivity | split; [reflexivity | ]].
    apply (split_stock_rejects_nonpositive small_holder zero); reflexivity.
  - split; [reflexivity | ].
    apply (split_stock_rejects_nonpositive small_holder minus_one); reflexivity.
Defined.

(** ** Stock split: holders left with nothing *)

(** C5. A holder whose balance a split brings to 0 is meant to leave the
    ledger. Splitting by 0.5 a registry where John holds one share leaves
    John in the ledger with balance 0: [is_shareholder] still answers true,
    [get_total_shareholders] and the one-holder-one-vote total still count
    him. *)
Theorem split_stock_keeps_empty_accounts :
  let st' := snd (split_stock half small_holder) in
  fst (split_stock half small_holder) = Ok 5 /\
  balance_of st' = [("Pikcio SA", 5); ("John Doe", 0)] /\
  get_balance st' "John Doe" = 0 /\
  is_shareholder st' (Some "John Doe") = true /\
  get_total_shareholders st' = 2 /\
  vote_mode st' = _VOTE_POLICY_OPOV /\
  get_total_votes st' = 2.
Proof. repeat split; reflexivity. Qed.

(** ** The scenario of [test.py] *)

(** C7. After the emitter has created 13,000,000 shares and transferred
    1,200,000 to John, with no delegation: under the weight-proportional
    policy the total is 13,000,000 votes, John's weight is the binary64
    nearest to 1,200,000/13,000,000, between 0.0923 and 0.0924, his rights
    are those of the 0.05 bracket and he is no majority; under
    one-holder-one-vote the total is 2 votes, his weight is 0.5 and he is
    still no majority. *)
Theorem scenario_of_the_test :
  let john := Some "John Doe" in
  let m := 6651470218885656%positive in
  (balance_of transferred = [("Pikcio SA", 11800000); ("John Doe", 1200000)] /\
   total_supply transferred = 13000000 /\
   delegations transferred = [] /\
   vote_mode transferred = _VOTE_POLICY_ODOV) /\
  (get_organic_shares transferred john = Ok 1200000 /\
   get_votes transferred john = Ok 1200000 /\
   get_total_votes transferred = 13000000 /\
   get_weight transferred john = truediv_int 1200000 13000000 /\
   get_weight transferred john = Ok (S754_finite false m (-56)) /\
   2 * Z.abs (Zpos m * 13000000 - 1200000 * 2 ^ 56) <= 13000000 /\
   923 * 2 ^ 56 <= Zpos m * 10000 < 924 * 2 ^ 56 /\
   get_rights transferred john
   = Ok [ "apply to court to prevent the conversion of a public company into a private company";
          "call a general meeting";
          "require the circulation of a written resolution to shareholders (in private companies)";
          "require the passing of a resolution at an annual general meeting (AGM) of a public company." ] /\
   is_majority transferred john = Ok false) /\
  (set_vote_mode _VOTE_POLICY_OPOV transferred
   = (Ok _VOTE_POLICY_ODOV, one_person_one_vote) /\
   get_total_votes one_person_one_vote = 2 /\
   get_votes one_person_one_vote john = Ok 1 /\
   get_weight one_person_one_vote john = Ok lit_0_5 /\
   ltb lit_0_5 lit_0_5 = false /\
   is_majority one_person_one_vote john = Ok false).
Proof.
  cbv zeta. repeat split; try reflexivity; vm_compute; discriminate.
Qed.

(** ** Effective shares and votes *)

Lemma truthy_nonempty (a : string) : a <> "" -> truthy a = true.
Proof. destruct a; [congruence | reflexivity]. Qed.

Lemma or_sender_given (st : state) (a : string) :
  a <> "" -> or_sender st (Some a) = a.
Proof. intros Ha. unfold or_sender. rewrite truthy_nonempty; trivial. Qed.

Lemma shareholder_is_shareholder (st : state) (a : string) :
  shareholder st a -> is_shareholder st (Some a) = true.
Proof.
  intros [Ha Hmem]. unfold is_shareholder. rewrite or_sender_given; trivial.
Qed.

Lemma shareholder_organic_shares (st : state) (a : string) :
  shareholder st a -> get_organic_shares st (Some a) = Ok (raw_balance st a).
Proof.
  intros Hs. unfold get_organic_shares, _assert_is_shareholder.
  rewrite (shareholder_is_shareholder st a Hs). reflexivity.
Qed.

Lemma shareholder_delegators (st : state) (a : string) :
  shareholder st a -> get_delegators st (Some a) = Ok (direct_delegators st a).
Proof.
  intros Hs. unfold get_delegators, _assert_is_shareholder.
  rewrite (shareholder_is_shareholder st a Hs). reflexivity.
Qed.

(** A sum whose terms all succeed is the sum of their values. *)
Lemma sum_results_ok {A : Type} (f : A -> result Z) (g : A -> Z) (xs : list A) :
  (forall x, In x xs -> f x = Ok (g x)) ->
  sum_results f xs = Ok (sum_list (map g xs)).
Proof.
  induction xs as [| x xs IH]; intros Hf; simpl.
  - reflexivity.
  - rewrite (Hf x (or_introl eq_refl)). simpl.
    rewrite IH by (intros y Hy; apply Hf; right; exact Hy).
    reflexivity.
Qed.

Lemma sum_list_zero {A : Type} (xs : list A) :
  sum_list (map (fun _ => 0) xs) = 0.
Proof. induction xs as [| x xs IH]; simpl; [reflexivity | rewrite IH; reflexivity]. Qed.

(** A direct delegator of [a] has [a] as its delegate, hence is
    delegating. *)
Lemma direct_delegator_delegates (st : state) (a d : string) :
  a <> "" -> d <> "" -> In d (direct_delegators st a) ->
  get_delegate st (Some d) = a /\ is_delegating st (Some d) = true.
Proof.
  intros Ha Hd Hin. unfold direct_delegators, delegators_of in Hin.
  apply filter_In in Hin. destruct Hin as [_ Heq]. simpl in Heq.
  apply String.eqb_eq in Heq.
  assert (Hg : get_delegate st (Some d) = a).
  { unfold get_delegate. rewrite or_sender_given; trivial. }
  split; [exact Hg | ].
  unfold is_delegating. rewrite Hg. apply truthy_nonempty; exact Ha.
Qed.

(** The effective shares of a shareholder that delegates its power. *)
Lemma get_shares_delegating (st : state) (a : string) :
  shareholder st a -> is_delegating st (Some a) = true ->
  get_shares st (Some a) = Ok 0.
Proof.
  intros Hs Hdel. unfold get_shares, _assert_is_shareholder.
  rewrite (shareholder_is_shareholder st a Hs), Hdel. reflexivity.
Qed.

(** The effective shares of a shareholder that keeps its power, when its
    delegators are shareholders. *)
Lemma get_shares_not_delegating (st : state) (a : string) :
  shareholder st a -> is_delegating st (Some a) = false ->
  Forall (shareholder st) (direct_delegators st a) ->
  get_shares st (Some a) =
    Ok (sum_list (map (raw_balance st) (direct_delegators st a))
        + raw_balance st a).
Proof.
  intros Hs Hdel Hall. unfold get_shares, _assert_is_shareholder.
  rewrite (shareholder_is_shareholder st a Hs), Hdel. simpl.
  unfold get_delegated_shares.
  rewrite (shareholder_delegators st a Hs). simpl.
  rewrite (sum_results_ok _ (raw_balance st)).
  - simpl. rewrite (shareholder_organic_shares st a Hs). reflexivity.
  - intros d Hd. apply shareholder_organic_shares.
    rewrite Forall_forall in Hall. apply Hall; exact Hd.
Qed.

(** Under the weight-proportional policy the delegated votes the code
    computes are 0, every delegator being counted for its effective
    shares. *)
Lemma get_delegated_votes_odov (st : state) (a : string) :
  vote_mode st = _VOTE_POLICY_ODOV ->
  shareholder st a ->
  Forall (shareholder st) (direct_delegators st a) ->
  get_delegated_votes st (Some a) = Ok 0.
Proof.
  intros Hmode Hs Hall. unfold get_delegated_votes.
  rewrite (shareholder_delegators st a Hs). simpl.
  rewrite (sum_results_ok _ (fun _ => 0)).
  - rewrite sum_list_zero. reflexivity.
  - intros d Hd. rewrite (get_organic_votes_odov st (Some d) Hmode).
    rewrite Forall_forall in Hall. pose proof (Hall d Hd) as Hsd.
    destruct (direct_delegator_delegates st a d (proj1 Hs) (proj1 Hsd) Hd)
      as [_ Hdd].
    apply get_shares_delegating; assumption.
Qed.

(** The delegated votes of the specification, policy by policy. *)
Lemma sum_map_values (st : state) (a : string) :
  vote_mode st = _VOTE_POLICY_ODOV ->
  sum_list (map (organic_votes st) (direct_delegators st a))
  = sum_list (map (raw_balance st) (direct_delegators st a)).
Proof.
  intros Hmode. f_equal. apply map_ext. intros d. unfold organic_votes.
  rewrite Hmode. reflexivity.
Qed.

Lemma sum_map_ones (st : state) (a : string) :
  (vote_mode st =? _VOTE_POLICY_ODOV) = false ->
  sum_list (map (organic_votes st) (direct_delegators st a))
  = sum_list (map (fun _ => 1) (direct_delegators st a)).
Proof.
  intros Hmode. f_equal. apply map_ext. intros d. unfold organic_votes.
  rewrite Hmode. reflexivity.
Qed.

(** C3, as amended. For a shareholder [a]: when [a] is delegating, its
    effective votes and shares are 0, whatever its balance and its
    delegators. When it is not: under one person one vote its effective
    votes are its organic votes plus its delegated votes; when every
    direct delegator of [a] is itself a shareholder, that holds under the
    weight-proportional policy too, and its effective shares are its raw
    balance plus the raw balances of its direct delegators. *)
Theorem effective_of_shareholder (st : state) (a : string) :
  shareholder st a ->
  (is_delegating st (Some a) = true ->
   get_votes st (Some a) = Ok 0 /\ get_shares st (Some a) = Ok 0) /\
  (is_delegating st (Some a) = false ->
   (vote_mode st <> _VOTE_POLICY_ODOV \/
    Forall (shareholder st) (direct_delegators st a) ->
    get_votes st (Some a) = Ok (organic_votes st a + delegated_votes st a)) /\
   (Forall (shareholder st) (direct_delegators st a) ->
    get_shares st (Some a) =
      Ok (raw_balance st a
          + sum_list (map (raw_balance st) (direct_delegators st a))))) /\
  (is_delegating st (Some a) = true \/
   Forall (shareholder st) (direct_delegators st a) ->
   effective st a).
Proof.
  intros Hs.
  assert (Hzero : is_delegating st (Some a) = true ->
                  get_votes st (Some a) = Ok 0 /\ get_shares st (Some a) = Ok 0).
  { intros Hdel. split.
    - unfold get_votes. rewrite Hdel. reflexivity.
    - apply get_shares_delegating; assumption. }
  assert (Hshares : is_delegating st (Some a) = false ->
                    Forall (shareholder st) (direct_delegators st a) ->
                    get_shares st (Some a) =
                      Ok (raw_balance st a
                          + sum_list (map (raw_balance st)
                                        (direct_delegators st a)))).
  { intros Hdel Hall.
    rewrite (get_shares_not_delegating st a Hs Hdel Hall). f_equal. lia. }
  assert (Hvotes : is_delegating st (Some a) = false ->
                   vote_mode st <> _VOTE_POLICY_ODOV \/
                   Forall (shareholder st) (direct_delegators st a) ->
                   get_votes st (Some a)
                   = Ok (organic_votes st a + delegated_votes st a)).
  { intros Hdel Hcase. unfold get_votes. rewrite Hdel. cbn [negb].
    unfold organic_votes, delegated_votes.
    destruct (vote_mode st =? _VOTE_POLICY_ODOV) eqn:Hmode.
    - apply Z.eqb_eq in Hmode.
      destruct Hcase as [Hopov | Hall]; [contradiction | ].
      rewrite (get_delegated_votes_odov st a Hmode Hs Hall). cbn [bind].
      rewrite (get_organic_votes_odov st (Some a) Hmode).
      rewrite (Hshares Hdel Hall). cbn [bind]. f_equal.
      rewrite (sum_map_values st a Hmode). lia.
    - unfold get_delegated_votes, get_organic_votes.
      rewrite (shareholder_delegators st a Hs), Hmode. cbn [bind].
      rewrite (sum_results_ok _ (fun _ => 1)) by reflexivity.
      cbn [bind]. f_equal.
      rewrite (sum_map_ones st a Hmode). lia. }
  split; [exact Hzero | split].
  - intros Hdel. split; [exact (Hvotes Hdel) | exact (Hshares Hdel)].
  - intros Hcase. unfold effective.
    destruct (is_delegating st (Some a)) eqn:Hdel.
    + apply Hzero. reflexivity.
    + destruct Hcase as [Habs | Hall]; [discriminate Habs | ].
      split; [apply Hvotes; [reflexivity | right; exact Hall]
             | apply Hshares; [reflexivity | exact Hall]].
Qed.

(** alice with bob as delegator, both shareholders; bob, who delegates
    while eve, who holds nothing, delegates to him; and alice under one
    person one vote, with eve as delegator. *)
Lemma effective_of_shareholder_witness :
  (shareholder delegated "alice" /\
   is_delegating delegated (Some "alice") = false /\
   Forall (shareholder delegated) (direct_delegators delegated "alice") /\
   get_votes delegated (Some "alice") = Ok (10 + 5) /\
   get_shares delegated (Some "alice") = Ok (10 + 5) /\
   effective delegated "alice") /\
  (shareholder chained "bob" /\
   is_delegating chained (Some "bob") = true /\
   direct_delegators chained "bob" = ["eve"] /\
   get_votes chained (Some "bob") = Ok 0 /\
   get_shares chained (Some "bob") = Ok 0 /\
   effective chained "bob") /\
  (shareholder dangling_opov "alice" /\
   is_delegating dangling_opov (Some "alice") = false /\
   vote_mode dangling_opov <> _VOTE_POLICY_ODOV /\
   direct_delegators dangling_opov "alice" = ["eve"] /\
   get_votes dangling_opov (Some "alice") = Ok (1 + 1)).
Proof.
  assert (Ha : shareholder delegated "alice")
    by (split; [discriminate | reflexivity]).
  assert (Hb : shareholder chained "bob")
    by (split; [discriminate | reflexivity]).
  assert (Hc : shareholder dangling_opov "alice")
    by (split; [discriminate | reflexivity]).
  assert (Hall : Forall (shareholder delegated)
                   (direct_delegators delegated "alice")).
  { change (direct_delegators delegated "alice") with ["bob"].
    apply Forall_cons; [split; [discriminate | reflexivity] | apply Forall_nil]. }
  assert (Hmode : vote_mode dangling_opov <> _VOTE_POLICY_ODOV)
    by discriminate.
  split; [ | split].
  - destruct (effective_of_shareholder delegated "alice" Ha)
      as [_ [Hkeep Heff]].
    destruct (Hkeep eq_refl) as [Hvotes Hshares].
    split; [exact Ha | split; [reflexivity | split; [exact Hall | ]]].
    split; [exact (Hvotes (or_intror Hall)) | ].
    split; [exact (Hshares Hall) | exact (Heff (or_intror Hall))].
  - destruct (effective_of_shareholder chained "bob" Hb)
      as [Hzero [_ Heff]].
    split; [exact Hb | split; [reflexivity | split; [reflexivity | ]]].
    split; [exact (proj1 (Hzero eq_refl)) | ].
    split; [exact (proj2 (Hzero eq_refl)) | exact (Heff (or_introl eq_refl))].
  - destruct (effective_of_shareholder dangling_opov "alice" Hc)
      as [_ [Hkeep _]].
    split; [exact Hc | split; [reflexivity | split; [exact Hmode | ]]].
    split; [reflexivity | ].
    exact (proj1 (Hkeep eq_refl) (or_introl Hmode)).
Defined.

(** C3, as stated, fails where a delegator holds nothing: eve, absent from
    the ledger, delegates to alice, the only holder; alice is not
    delegating, and her effective shares and votes raise the
    not-a-shareholder error for eve. *)
Lemma effective_counterexample :
  shareholder dangling "alice" /\
  is_delegating dangling (Some "alice") = false /\
  direct_delegators dangling "alice" = ["eve"] /\
  get_shares dangling (Some "alice") = Raise (NotAShareholder (Some "eve")) /\
  get_votes dangling (Some "alice") = Raise (NotAShareholder (Some "eve")) /\
  ~ effective dangling "alice".
Proof.
  split; [split; [discriminate | reflexivity] | ].
  repeat (split; [reflexivity | ]).
  unfold effective. simpl. intros [Hvotes _]. discriminate Hvotes.
Qed.

(** ** Dictionaries *)

Section DictFacts.

Context {V : Type}.

Lemma get_app_notin (l1 l2 : Dict.t V) (k : string) :
  ~ In k (Dict.keys l1) -> Dict.get (l1 ++ l2) k = Dict.get l2 k.
Proof.
  induction l1 as [| [k' v'] l1 IH]; intros Hk; simpl.
  - reflexivity.
  - simpl in Hk. destruct (String.eqb_spec k k') as [Heq | Hneq].
    + exfalso. apply Hk. left. symmetry. exact Heq.
    + apply IH. intros Hin. apply Hk. right. exact Hin.
Qed.

Lemma set_app_notin (l1 l2 : Dict.t V) (k : string) (v : V) :
  ~ In k (Dict.keys l1) -> Dict.set (l1 ++ l2) k v = l1 ++ Dict.set l2 k v.
Proof.
  induction l1 as [| [k' v'] l1 IH]; intros Hk; simpl.
  - reflexivity.
  - simpl in Hk. destruct (String.eqb_spec k k') as [Heq | Hneq].
    + exfalso. apply Hk. left. symmetry. exact Heq.
    + f_equal. apply IH. intros Hin. apply Hk. right. exact Hin.
Qed.

Lemma keys_app (l1 l2 : Dict.t V) :
  Dict.keys (l1 ++ l2) = Dict.keys l1 ++ Dict.keys l2.
Proof. apply map_app. Qed.

(** Reading every key of a dictionary gives its values, in order. *)
Lemma get_each_key (d : Dict.t V) (default : V) :
  Dict.wf d ->
  map (fun k => Dict.get_default d k default) (Dict.keys d) = Dict.values d.
Proof.
  unfold Dict.wf.
  induction d as [| [k v] d IH]; intros Hwf; simpl.
  - reflexivity.
  - inversion Hwf as [| k0 ks Hnotin Hrest]; subst.
    unfold Dict.get_default at 1. simpl. rewrite String.eqb_refl. f_equal.
    rewrite <- (IH Hrest). apply map_ext_in. intros k' Hk'.
    unfold Dict.get_default. simpl.
    destruct (String.eqb_spec k' k) as [Heq | Hneq]; [ | reflexivity].
    subst k'. contradiction.
Qed.

End DictFacts.

(** ** Stock split: the reconciliation *)

Lemma binary_round_aux_sign (s : bool) (m e : Z) (l : location) :
  sign_is s (binary_round_aux prec emax s m e l).
Proof.
  unfold binary_round_aux.
  destruct (shr_fexp prec emax m e l) as [mrs' e'].
  destruct (shr_fexp prec emax _ e' loc_Exact) as [mrs'' e''].
  destruct (shr_m mrs''); [ | destruct (Z.leb _ _) | ]; simpl; trivial.
Qed.

(** The conversion of a natural number is not negative. *)
Lemma of_int_sign (v : Z) (x : float) :
  0 <= v -> of_int v = Ok x -> sign_is false x.
Proof.
  intros Hv. unfold of_int, binary_normalize.
  destruct v as [| m | m]; [ | | lia].
  - intros H. inversion H. reflexivity.
  - unfold binary_round.
    destruct (shl_align m 0 _) as [mz ez].
    pose proof (binary_round_aux_sign false (Zpos mz) ez loc_Exact) as Hs.
    destruct (binary_round_aux prec emax false (Zpos mz) ez loc_Exact);
      intros H; inversion H; subst; exact Hs.
Qed.

(** A factor above zero is a positive number or the positive infinity. *)
Lemma positive_factor (f : float) :
  ltb zero f = true ->
  leb f zero = false /\
  (f = S754_infinity false \/ exists m e, f = S754_finite false m e).
Proof.
  destruct f as [s | s | | s m e]; try destruct s; simpl;
    try discriminate; intros _; split; try reflexivity; eauto.
Qed.

Lemma SFmul_sign (x f : float) :
  sign_is false x -> ltb zero f = true -> sign_is false (SFmul prec emax x f).
Proof.
  intros Hx Hf. apply positive_factor in Hf.
  destruct Hf as [_ [Hf | [m [e Hf]]]]; subst f;
    destruct x as [s | s | | s mx ex]; simpl in *; subst; simpl; trivial.
  apply binary_round_aux_sign.
Qed.

(** On a value that is not negative, [int] is the floor. *)
Lemma to_int_floor (p : float) (n : Z) :
  sign_is false p -> floor p = Some n -> to_int p = Ok n.
Proof.
  destruct p as [s | s | | s m e]; simpl; try discriminate.
  - intros _ H. inversion H. reflexivity.
  - intros Hs H. subst s. inversion H as [Hn]. clear H.
    unfold trunc_finite. f_equal.
    destruct e as [| q | q]; trivial.
    change (Z.pow_pos 2 q) with (2 ^ Z.pos q).
    apply Z.quot_div_nonneg; [lia | ].
    apply Z.pow_pos_nonneg; lia.
Qed.

(** The balance the loop computes is the floor of the binary64 product. *)
Lemma scaled_floor (f : float) (v n : Z) :
  0 <= v -> ltb zero f = true ->
  floor_scaled f v = Some n -> scaled f v = Ok n.
Proof.
  intros Hv Hf. unfold floor_scaled, scaled, mul_int.
  destruct (of_int v) as [x | e] eqn:Hx; [ | discriminate].
  simpl. intros Hfloor. apply to_int_floor; [ | exact Hfloor].
  apply SFmul_sign; [ | exact Hf]. exact (of_int_sign v x Hv Hx).
Qed.

(** The loop, on the accounts that remain, when no product overflows. *)
Lemma rescale_app (f : float) (g : string * Z -> Z) (l2 : Dict.t Z) :
  forall l1 : Dict.t Z,
    Dict.wf (l1 ++ l2) ->
    Forall (fun entry => scaled f (snd entry) = Ok (g entry)) l2 ->
    rescale (Dict.keys l2) f (l1 ++ l2)
    = (l1 ++ map (fun entry => (fst entry, g entry)) l2, None).
Proof.
  unfold Dict.wf.
  induction l2 as [| [k v] l2 IH]; intros l1 Hwf Hall; simpl.
  - reflexivity.
  - inversion Hall as [| entry rest Hkv Hrest]; subst. simpl in Hkv.
    rewrite keys_app in Hwf. simpl in Hwf.
    assert (Hnotin : ~ In k (Dict.keys l1)).
    { intros Hin. apply NoDup_remove_2 in Hwf. apply Hwf.
      apply in_or_app. left. exact Hin. }
    unfold Dict.get_default. rewrite (get_app_notin l1 _ k Hnotin).
    simpl. rewrite String.eqb_refl, Hkv.
    rewrite (set_app_notin l1 _ k _ Hnotin). simpl.
    rewrite String.eqb_refl.
    change (l1 ++ (k, g (k, v)) :: l2) with (l1 ++ [(k, g (k, v))] ++ l2).
    rewrite app_assoc. rewrite IH; trivial.
    + rewrite <- app_assoc. reflexivity.
    + rewrite !keys_app. simpl. rewrite <- app_assoc. exact Hwf.
Qed.

Lemma ledger_sum_values (b : Dict.t Z) :
  Dict.wf b -> ledger_sum b = sum_list (Dict.values b).
Proof.
  intros Hwf. unfold ledger_sum. rewrite get_each_key; trivial.
Qed.

Lemma floored_keys (f : float) (b : Dict.t Z) :
  Dict.keys (map (floored f) b) = Dict.keys b.
Proof.
  unfold Dict.keys. rewrite map_map. reflexivity.
Qed.

(** The product is rounded before [int] is taken: 10 times the binary64
    0.7 is a little under 7 and rounds to 7.0, 100 times the binary64 0.29
    is a little under 29 and rounds below it. *)
Lemma scaled_rounds_the_product :
  truediv_int 7 10 = Ok seven_tenths /\
  scaled seven_tenths 10 = Ok 7 /\
  10 * 6305039478318694 / 2 ^ 53 = 6 /\
  truediv_int 29 100 = Ok twenty_nine_hundredths /\
  scaled twenty_nine_hundredths 100 = Ok 28.
Proof. repeat split; reflexivity. Qed.

(** C4, as amended. When the emitter splits the stock by a factor [f > 0]
    and the binary64 product of every balance (none negative) by [f] is
    finite: every balance becomes the floor of that product, the total
    supply returned and committed is the sum of the new balances, and the
    balances sum to the total supply afterwards. *)
Theorem split_stock_reconciles (st : state) (f : float) :
  sender st = emitter st ->
  ltb zero f = true ->
  Dict.wf (balance_of st) ->
  Forall (fun entry => 0 <= snd entry) (balance_of st) ->
  Forall (fun entry => floor_scaled f (snd entry) <> None) (balance_of st) ->
  split_reconciled st f.
Proof.
  intros Hemitter Hf Hwf Hpos Hfinite.
  set (b' := map (floored f) (balance_of st)).
  assert (Hloop : rescale (Dict.keys (balance_of st)) f (balance_of st)
                  = (b', None)).
  { apply (rescale_app f (fun entry => snd (floored f entry))
             (balance_of st) [] Hwf).
    rewrite Forall_forall in *. intros entry Hin.
    apply scaled_floor; [exact (Hpos entry Hin) | exact Hf | ].
    specialize (Hfinite entry Hin). simpl.
    destruct (floor_scaled f (snd entry)); [reflexivity | congruence]. }
  assert (Hsum : ledger_sum b' = sum_list (Dict.values b')).
  { apply ledger_sum_values. unfold Dict.wf, b'. rewrite floored_keys.
    exact Hwf. }
  assert (Hnew : Forall2 (fun old new => fst new = fst old /\
                            floor_scaled f (snd old) = Some (snd new))
                   (balance_of st) b').
  { unfold b'. clear Hloop Hsum Hwf Hpos b'.
    induction (balance_of st) as [| entry l IH]; simpl; constructor.
    - inversion Hfinite as [| e0 l0 H0 _]; subst. split; [reflexivity | ].
      simpl. destruct (floor_scaled f (snd entry)); [reflexivity | congruence].
    - apply IH. inversion Hfinite; assumption. }
  destruct (positive_factor f Hf) as [Hleb _].
  unfold split_reconciled, split_stock, _assert_is_emitter.
  rewrite Hemitter, String.eqb_refl, Hleb, Hloop.
  eexists. eexists. split; [reflexivity | ].
  destruct (0 <? _); [ | destruct (_ <? 0)]; simpl;
    (split; [exact Hnew | split; [exact Hsum | exact Hsum]]).
Qed.

(** A split by 1.5 of 10 and 1 shares gives 15 and 1 shares, 16 in all. *)
Lemma split_stock_reconciles_witness :
  sender small_holder = emitter small_holder /\
  ltb zero one_and_a_half = true /\
  split_reconciled small_holder one_and_a_half.
Proof.
  split; [reflexivity | split; [reflexivity | ]].
  apply (split_stock_reconciles small_holder one_and_a_half).
  - reflexivity.
  - reflexivity.
  - unfold Dict.wf. simpl. repeat constructor; simpl; intuition discriminate.
  - simpl. repeat constructor; simpl; discriminate.
  - simpl. repeat constructor; vm_compute; discriminate.
Defined.

(** C4, as stated, fails when a product overflows. The emitter A (1 share)
    splits by 2 ** 1023 a stock where B holds 2 shares: the product for B
    is infinite, the call raises the overflow error after the balance of A
    was replaced, and the balances no longer sum to the total supply. *)
Lemma split_stock_overflow_counterexample :
  sender two_holders = emitter two_holders /\
  ltb zero two_pow_1023 = true /\
  fst (split_stock two_pow_1023 two_holders) = Raise OverflowError /\
  balance_of (snd (split_stock two_pow_1023 two_holders))
  = [("A", 2 ^ 1023); ("B", 2)] /\
  total_supply (snd (split_stock two_pow_1023 two_holders)) = 3 /\
  ~ split_reconciled two_holders two_pow_1023.
Proof.
  repeat (split; [vm_compute; reflexivity | ]).
  intros [t [st' [Hcall _]]].
  assert (H : fst (split_stock two_pow_1023 two_holders) = Ok t)
    by (rewrite Hcall; reflexivity).
  vm_compute in H. discriminate H.
Qed.

(** ** The rights of a weight *)

Lemma leb_finite (m1 m2 : positive) (e1 e2 : Z) :
  leb (S754_finite false m1 e1) (S754_finite false m2 e2) = true
  <-> lex_le e1 m1 e2 m2.
Proof.
  unfold leb, SFleb, lex_le. simpl.
  change (Pos.compare_cont Eq m1 m2) with (Pos.compare m1 m2).
  destruct (Z.compare_spec e1 e2); destruct (Pos.compare_spec m1 m2);
    split; intros Hc; try discriminate; try reflexivity; lia.
Qed.

Lemma ltb_finite (m1 m2 : positive) (e1 e2 : Z) :
  ltb (S754_finite false m1 e1) (S754_finite false m2 e2) = true
  <-> lex_lt e1 m1 e2 m2.
Proof.
  unfold ltb, SFltb, lex_lt. simpl.
  change (Pos.compare_cont Eq m1 m2) with (Pos.compare m1 m2).
  destruct (Z.compare_spec e1 e2); destruct (Pos.compare_spec m1 m2);
    split; intros Hc; try discriminate; try reflexivity; lia.
Qed.

(** Case analysis on the numbers compared with a positive one. *)
Ltac float_cases :=
  repeat match goal with
         | x : float |- _ => destruct x as [[] | [] | | [] ? ?]
         end;
  simpl in *; try discriminate; try reflexivity.

Lemma leb_ltb_trans (a b c : float) :
  ltb zero a = true -> leb a b = true -> ltb b c = true -> leb a c = true.
Proof.
  intros Ha Hab Hbc. float_cases.
  apply leb_finite. apply leb_finite in Hab. apply ltb_finite in Hbc.
  unfold lex_le, lex_lt in *. lia.
Qed.

Lemma ltb_leb_trans (a b c : float) :
  ltb zero a = true -> ltb a b = true -> leb b c = true -> leb a c = true.
Proof.
  intros Ha Hab Hbc. float_cases.
  apply leb_finite. apply ltb_finite in Hab. apply leb_finite in Hbc.
  unfold lex_le, lex_lt in *. lia.
Qed.

(** The chained generator is the concatenation of the brackets kept. *)
Lemma chain_rights_concat (table : list (float * list string)) (w : float) :
  chain_rights table w
  = List.concat (map snd (filter (fun bracket => leb (fst bracket) w) table)).
Proof.
  induction table as [| [t rights] table IH]; simpl.
  - reflexivity.
  - destruct (leb t w); simpl; rewrite IH; reflexivity.
Qed.

(** A weight that misses a threshold misses every higher one. *)
Lemma chain_rights_above (table : list (float * list string)) (t w : float) :
  ltb zero t = true ->
  forallb (fun later => ltb t (fst later)) table = true ->
  leb t w = false ->
  chain_rights table w = [].
Proof.
  intros Ht Hlater Hmiss.
  induction table as [| [t' rights] table IH]; simpl in *.
  - reflexivity.
  - apply andb_prop in Hlater. destruct Hlater as [Htt' Hrest].
    destruct (leb t' w) eqn:Ht'w.
    + rewrite (ltb_leb_trans t t' w Ht Htt' Ht'w) in Hmiss. discriminate.
    + apply IH. exact Hrest.
Qed.

Lemma chain_rights_prefix (table : list (float * list string)) (w1 w2 : float) :
  forallb (fun bracket => ltb zero (fst bracket)) table = true ->
  ascending table = true ->
  ltb w1 w2 = true ->
  prefix (chain_rights table w1) (chain_rights table w2).
Proof.
  intros Hpos Hasc Hlt.
  induction table as [| [t rights] table IH]; simpl in *.
  - exists []. reflexivity.
  - apply andb_prop in Hpos. destruct Hpos as [Ht Hpos].
    apply andb_prop in Hasc. destruct Hasc as [Hlater Hasc].
    destruct (leb t w1) eqn:Htw1.
    + rewrite (leb_ltb_trans t w1 w2 Ht Htw1 Hlt).
      destruct (IH Hpos Hasc) as [rest Hrest].
      exists rest. rewrite Hrest. apply app_assoc.
    + rewrite (chain_rights_above table t w1 Ht Hlater Htw1).
      eexists. reflexivity.
Qed.

(** C8. The rights of a weight are the right-lists of the brackets whose
    threshold is at most the weight, concatenated in the order of the
    table, which is by ascending threshold, nothing being removed; and for
    [w1 < w2] the rights of [w1] are a prefix of the rights of [w2], hence
    each right occurs in them at most as often. *)
Theorem rights_by_bracket :
  (forall w, _get_rights w = rights_for w) /\
  ascending _SHAREHOLDERS_RIGHTS = true /\
  (forall w1 w2, ltb w1 w2 = true ->
     prefix (_get_rights w1) (_get_rights w2) /\
     forall right,
       (count_occ string_dec (_get_rights w1) right
        <= count_occ string_dec (_get_rights w2) right)%nat).
Proof.
  split; [ | split].
  - intros w. apply chain_rights_concat.
  - reflexivity.
  - intros w1 w2 Hlt.
    assert (Hprefix : prefix (_get_rights w1) (_get_rights w2))
      by (apply chain_rights_prefix; [reflexivity | reflexivity | exact Hlt]).
    split; [exact Hprefix | ].
    intros right. destruct Hprefix as [rest Hrest]. rewrite Hrest.
    rewrite count_occ_app. lia.
Qed.

(** The weights 0.05 and 0.15: one bracket, then three. *)
Lemma rights_by_bracket_witness :
  ltb lit_0_05 lit_0_15 = true /\
  List.length (_get_rights lit_0_05) = 4%nat /\
  List.length (_get_rights lit_0_15) = 7%nat /\
  prefix (_get_rights lit_0_05) (_get_rights lit_0_15).
Proof.
  split; [reflexivity | split; [reflexivity | split; [reflexivity | ]]].
  exact (proj1 (proj2 (proj2 rights_by_bracket) lit_0_05 lit_0_15 eq_refl)).
Defined.

(** * Further properties of the token *)

Import Admin Delegation Split.

(** ** Dictionaries: reading after writing *)

Section DictWrites.

Context {V : Type}.

Lemma get_set_same (d : Dict.t V) (k : string) (v : V) :
  Dict.get (Dict.set d k v) k = Some v.
Proof.
  induction d as [| [k' v'] d IH]; simpl.
  - rewrite String.eqb_refl. reflexivity.
  - destruct (String.eqb k k') eqn:Hk; simpl; rewrite Hk; trivial.
Qed.

Lemma get_set_other (d : Dict.t V) (k k' : string) (v : V) :
  k' <> k -> Dict.get (Dict.set d k v) k' = Dict.get d k'.
Proof.
  intros Hneq. induction d as [| [k0 v0] d IH]; simpl.
  - destruct (String.eqb_spec k' k); [contradiction | reflexivity].
  - destruct (String.eqb_spec k k0) as [Heq | Hne]; simpl.
    + subst k0. destruct (String.eqb_spec k' k); [contradiction | reflexivity].
    + destruct (String.eqb k' k0); trivial.
Qed.

Lemma get_none_notin (d : Dict.t V) (k : string) :
  Dict.get d k = None <-> ~ In k (Dict.keys d).
Proof.
  induction d as [| [k' v'] d IH]; simpl.
  - split; [intros _ [] | reflexivity].
  - destruct (String.eqb_spec k k') as [Heq | Hne].
    + split; [discriminate | ]. intros Hk. exfalso. apply Hk. left.
      symmetry. exact Heq.
    + rewrite IH. split; intros Hk.
      * intros [Heq | Hin]; [apply Hne; symmetry; exact Heq | exact (Hk Hin)].
      * intros Hin. apply Hk. right. exact Hin.
Qed.

Lemma get_some_in (d : Dict.t V) (k : string) (v : V) :
  Dict.get d k = Some v -> In (k, v) d.
Proof.
  induction d as [| [k' v'] d IH]; simpl; [discriminate | ].
  destruct (String.eqb_spec k k') as [Heq | Hne]; intros H.
  - inversion H. subst. left. reflexivity.
  - right. apply IH. exact H.
Qed.

Lemma mem_in_keys (d : Dict.t V) (k : string) :
  Dict.mem d k = true <-> In k (Dict.keys d).
Proof.
  unfold Dict.mem. pose proof (get_none_notin d k) as Hnone.
  destruct (Dict.get d k) as [v | ].
  - split; [ | reflexivity]. intros _.
    destruct (in_dec string_dec k (Dict.keys d)) as [Hin | Hout]; trivial.
    apply Hnone in Hout. discriminate.
  - split; [discriminate | ]. intros Hin.
    exfalso. apply (proj1 Hnone eq_refl). exact Hin.
Qed.

Lemma get_remove_same (d : Dict.t V) (k : string) :
  Dict.wf d -> Dict.get (Dict.remove d k) k = None.
Proof.
  unfold Dict.wf. induction d as [| [k' v'] d IH]; intros Hwf; simpl.
  - reflexivity.
  - inversion Hwf as [| k0 ks Hnotin Hrest]; subst.
    destruct (String.eqb_spec k k') as [Heq | Hne].
    + subst k'. apply get_none_notin. exact Hnotin.
    + simpl. destruct (String.eqb_spec k k'); [contradiction | ].
      apply IH. exact Hrest.
Qed.

Lemma get_remove_other (d : Dict.t V) (k k' : string) :
  k' <> k -> Dict.get (Dict.remove d k) k' = Dict.get d k'.
Proof.
  intros Hneq. induction d as [| [k0 v0] d IH]; simpl.
  - reflexivity.
  - destruct (String.eqb_spec k k0) as [Heq | Hne]; simpl.
    + subst k0. destruct (String.eqb_spec k' k); [contradiction | reflexivity].
    + destruct (String.eqb k' k0); trivial.
Qed.

Lemma remove_set_fresh (d : Dict.t V) (k : string) (v : V) :
  ~ In k (Dict.keys d) -> Dict.remove (Dict.set d k v) k = d.
Proof.
  induction d as [| [k' v'] d IH]; intros Hk; simpl.
  - rewrite String.eqb_refl. reflexivity.
  - simpl in Hk. destruct (String.eqb_spec k k') as [Heq | Hne].
    + exfalso. apply Hk. left. symmetry. exact Heq.
    + simpl. destruct (String.eqb_spec k k'); [contradiction | ].
      f_equal. apply IH. intros Hin. apply Hk. right. exact Hin.
Qed.

Lemma keys_set_present (d : Dict.t V) (k : string) (v : V) :
  In k (Dict.keys d) -> Dict.keys (Dict.set d k v) = Dict.keys d.
Proof.
  induction d as [| [k' v'] d IH]; simpl; intros Hin.
  - contradiction.
  - destruct (String.eqb_spec k k') as [Heq | Hne]; simpl.
    + reflexivity.
    + f_equal. apply IH. destruct Hin as [Heq | Hin]; trivial.
      exfalso. apply Hne. symmetry. exact Heq.
Qed.

End DictWrites.

(** ** Delegation *)

Lemma truthy_empty (a : string) : truthy a = false -> a = "".
Proof. destruct a; [reflexivity | discriminate]. Qed.

Lemma truthy_true (a : string) : truthy a = true -> a <> "".
Proof. destruct a; [discriminate | intros _ H; discriminate H]. Qed.

(** The delegators the generator yields for [a] are the keys whose value is
    [a]. *)
Lemma delegators_of_iff (st : state) (a d : string) :
  a <> "" ->
  (In d (delegators_of st (Some a))
   <-> Dict.get_default (delegations st) d "" = a).
Proof.
  intros Ha. unfold delegators_of. rewrite filter_In. simpl.
  rewrite String.eqb_eq. split; [intros [_ H]; exact H | ].
  intros Hd. split; [ | exact Hd].
  unfold Dict.get_default in Hd.
  destruct (Dict.get (delegations st) d) as [v | ] eqn:Hget.
  - apply get_some_in in Hget. unfold Dict.keys.
    apply (in_map fst) in Hget. exact Hget.
  - exfalso. apply Ha. symmetry. exact Hd.
Qed.

(** [set_delegate] with a non-empty address never fails, whoever calls it
    and whatever the address: it returns the caller's previous delegate,
    installs the new one, leaves the delegate of every other address as it
    was and does not touch the ledger. *)
Theorem set_delegate_installs (st : state) (to_address : string) :
  to_address <> "" ->
  let st' := snd (set_delegate to_address st) in
  fst (set_delegate to_address st) = Ok (get_delegate st None) /\
  get_delegate st' None = to_address /\
  is_delegating st' None = true /\
  (forall b, b <> "" -> b <> sender st ->
             get_delegate st' (Some b) = get_delegate st (Some b)) /\
  balance_of st' = balance_of st /\
  total_supply st' = total_supply st /\
  sender st' = sender st.
Proof.
  intros Hto. unfold set_delegate. rewrite (truthy_nonempty _ Hto). simpl.
  assert (Hget : get_delegate
                   (set_delegations st
                      (Dict.set (delegations st) (sender st) to_address)) None
                 = to_address).
  { unfold get_delegate, Dict.get_default. simpl.
    rewrite get_set_same. reflexivity. }
  repeat split; trivial.
  - unfold is_delegating. rewrite Hget. apply truthy_nonempty. exact Hto.
  - intros b Hb Hneq. unfold get_delegate, Dict.get_default.
    rewrite !or_sender_given by exact Hb. simpl.
    rewrite get_set_other by exact Hneq. reflexivity.
Qed.

(** eve, who holds nothing, delegates to alice. *)
Lemma set_delegate_installs_witness :
  let st := set_sender delegated "eve" in
  "alice" <> "" /\
  is_shareholder st None = false /\
  fst (set_delegate "alice" st) = Ok "" /\
  get_delegate (snd (set_delegate "alice" st)) None = "alice".
Proof.
  cbv zeta. split; [discriminate | split; [reflexivity | ]].
  assert (Hto : "alice" <> "") by discriminate.
  destruct (set_delegate_installs (set_sender delegated "eve") "alice" Hto)
    as [Hret [Hget _]].
  split; [exact Hret | exact Hget].
Defined.

(** [remove_delegate] never fails: it returns the caller's delegate, or the
    empty string when there is none and then changes nothing; afterwards
    the caller delegates to nobody, and the delegate of every other address
    is as it was. *)
Theorem remove_delegate_clears (st : state) :
  Dict.wf (delegations st) ->
  let st' := snd (remove_delegate st) in
  fst (remove_delegate st) = Ok (get_delegate st None) /\
  (is_delegating st None = false -> st' = st) /\
  get_delegate st' None = "" /\
  is_delegating st' None = false /\
  (forall b, b <> "" -> b <> sender st ->
             get_delegate st' (Some b) = get_delegate st (Some b)) /\
  balance_of st' = balance_of st.
Proof.
  intros Hwf. unfold remove_delegate, is_delegating. simpl.
  destruct (truthy (get_delegate st None)) eqn:Hprev.
  - assert (Hget : get_delegate
                     (set_delegations st
                        (Dict.remove (delegations st) (sender st))) None = "").
    { unfold get_delegate, Dict.get_default. simpl.
      rewrite get_remove_same by exact Hwf. reflexivity. }
    repeat split; trivial.
    + discriminate.
    + rewrite Hget. reflexivity.
    + intros b Hb Hneq. unfold get_delegate, Dict.get_default.
      rewrite !or_sender_given by exact Hb. simpl.
      rewrite get_remove_other by exact Hneq. reflexivity.
  - pose proof (truthy_empty _ Hprev) as Hempty.
    repeat split; trivial.
Qed.

(** bob gives up his delegation to alice. *)
Lemma remove_delegate_clears_witness :
  let st := set_sender delegated "bob" in
  Dict.wf (delegations st) /\
  fst (remove_delegate st) = Ok "alice" /\
  get_delegate (snd (remove_delegate st)) None = "".
Proof.
  cbv zeta.
  assert (Hwf : Dict.wf (delegations (set_sender delegated "bob"))).
  { unfold Dict.wf. simpl. repeat constructor. simpl. intuition. }
  split; [exact Hwf | ].
  destruct (remove_delegate_clears (set_sender delegated "bob") Hwf)
    as [Hret [_ [Hget _]]].
  split; [exact Hret | exact Hget].
Defined.

Lemma set_delegations_same (st : state) :
  set_delegations st (delegations st) = st.
Proof. destruct st. reflexivity. Qed.

(** A caller without delegation who delegates and then removes the
    delegation is back in the registry it started from. *)
Theorem set_then_remove_delegate (st : state) (to_address : string) :
  to_address <> "" ->
  ~ In (sender st) (Dict.keys (delegations st)) ->
  remove_delegate (snd (set_delegate to_address st)) = (Ok to_address, st).
Proof.
  intros Hto Hfresh. unfold set_delegate. rewrite (truthy_nonempty _ Hto).
  simpl. unfold remove_delegate.
  assert (Hget : get_delegate
                   (set_delegations st
                      (Dict.set (delegations st) (sender st) to_address)) None
                 = to_address).
  { unfold get_delegate, Dict.get_default. simpl.
    rewrite get_set_same. reflexivity. }
  rewrite Hget, (truthy_nonempty _ Hto). simpl.
  rewrite remove_set_fresh by exact Hfresh.
  f_equal. destruct st. reflexivity.
Qed.

(** alice delegates to bob and takes the delegation back. *)
Lemma set_then_remove_delegate_witness :
  "bob" <> "" /\
  ~ In (sender delegated) (Dict.keys (delegations delegated)) /\
  remove_delegate (snd (set_delegate "bob" delegated)) = (Ok "bob", delegated).
Proof.
  assert (Hto : "bob" <> "") by discriminate.
  assert (Hfresh : ~ In (sender delegated) (Dict.keys (delegations delegated))).
  { simpl. intros [H | []]. discriminate H. }
  split; [exact Hto | split; [exact Hfresh | ]].
  exact (set_then_remove_delegate delegated "bob" Hto Hfresh).
Defined.

(** [get_delegators] is the reverse of [get_delegate]: for a shareholder
    [a] it lists exactly the addresses whose delegate is [a], each once. *)
Theorem get_delegators_reverse (st : state) (a : string) :
  a <> "" ->
  is_shareholder st (Some a) = true ->
  exists ds,
    get_delegators st (Some a) = Ok ds /\
    (forall d, d <> "" -> (In d ds <-> get_delegate st (Some d) = a)) /\
    (Dict.wf (delegations st) -> NoDup ds).
Proof.
  intros Ha Hs. exists (delegators_of st (Some a)).
  unfold get_delegators, _assert_is_shareholder. rewrite Hs.
  split; [reflexivity | split].
  - intros d Hd. rewrite (delegators_of_iff st a d Ha).
    unfold get_delegate. rewrite or_sender_given by exact Hd. reflexivity.
  - intros Hwf. unfold delegators_of. apply NoDup_filter. exact Hwf.
Qed.

(** The delegators of alice are bob and nobody else. *)
Lemma get_delegators_reverse_witness :
  "alice" <> "" /\
  is_shareholder delegated (Some "alice") = true /\
  exists ds,
    get_delegators delegated (Some "alice") = Ok ds /\
    (In "bob" ds <-> get_delegate delegated (Some "bob") = "alice").
Proof.
  assert (Ha : "alice" <> "") by discriminate.
  split; [exact Ha | split; [reflexivity | ]].
  destruct (get_delegators_reverse delegated "alice" Ha eq_refl)
    as [ds [Hds [Hiff _]]].
  exists ds. split; [exact Hds | ].
  apply Hiff. discriminate.
Defined.

(** After [set_delegate(to)] the caller is a delegator of [to] and of
    nobody else. *)
Theorem set_delegate_moves_delegator (st : state) (to_address a : string) :
  to_address <> "" -> sender st <> "" -> a <> "" ->
  (In (sender st) (delegators_of (snd (set_delegate to_address st)) (Some a))
   <-> a = to_address).
Proof.
  intros Hto Hs Ha. rewrite (delegators_of_iff _ a _ Ha).
  unfold set_delegate. rewrite (truthy_nonempty _ Hto). simpl.
  unfold Dict.get_default. rewrite get_set_same.
  split; intros H; symmetry; exact H.
Qed.

(** bob moves his delegation from alice to carol. *)
Lemma set_delegate_moves_delegator_witness :
  let st := set_sender delegated "bob" in
  In "bob" (delegators_of st (Some "alice")) /\
  ~ In "bob" (delegators_of (snd (set_delegate "carol" st)) (Some "alice")) /\
  In "bob" (delegators_of (snd (set_delegate "carol" st)) (Some "carol")).
Proof.
  cbv zeta.
  assert (Hto : "carol" <> "") by discriminate.
  assert (Hs : sender (set_sender delegated "bob") <> "") by discriminate.
  split; [left; reflexivity | split].
  - intros Hin.
    apply (set_delegate_moves_delegator (set_sender delegated "bob")
             "carol" "alice" Hto Hs) in Hin; [discriminate Hin | discriminate].
  - apply (set_delegate_moves_delegator (set_sender delegated "bob")
             "carol" "carol" Hto Hs); [discriminate | reflexivity].
Defined.

(** ** The emitter and its operations *)

Lemma not_emitter (st : state) :
  sender st <> emitter st ->
  _assert_is_emitter st (sender st) = Raise (NotEmitter (sender st)).
Proof.
  intros Hneq. unfold _assert_is_emitter.
  destruct (String.eqb_spec (sender st) (emitter st)); [contradiction | ].
  reflexivity.
Qed.

(** Minting, burning, splitting, changing the vote policy or the dividend
    are refused to any caller but the emitter, before the ledger library is
    reached and with nothing changed. *)
Theorem emitter_only (base_mint base_burn : library_call) (g : registry)
  (amount mode : Z) (factor rate : PyFloat.float) :
  let st := token g in
  sender st <> emitter st ->
  mint base_mint amount st = (Raise (NotEmitter (sender st)), st) /\
  burn base_burn amount st = (Raise (NotEmitter (sender st)), st) /\
  split_stock factor st = (Raise (NotEmitter (sender st)), st) /\
  set_vote_mode mode st = (Raise (NotEmitter (sender st)), st) /\
  set_dividend rate g = (Raise (NotEmitter (sender st)), g).
Proof.
  cbv zeta. intros Hneq. pose proof (not_emitter (token g) Hneq) as Hguard.
  unfold mint, burn, through, split_stock, set_vote_mode, set_dividend.
  rewrite Hguard. repeat split; reflexivity.
Qed.

(** bob asks for each of them in alice's registry, with a library that
    would grant anything. *)
Lemma emitter_only_witness :
  let st := set_sender delegated "bob" in
  let grant : library_call := fun b t _ n evs => (Ok (t + n), b, evs) in
  sender st <> emitter st /\
  mint grant 100 st = (Raise (NotEmitter "bob"), st) /\
  set_vote_mode _VOTE_POLICY_OPOV st = (Raise (NotEmitter "bob"), st).
Proof.
  cbv zeta.
  assert (Hneq : sender (token (mkRegistry (set_sender delegated "bob") zero))
                 <> emitter (token (mkRegistry (set_sender delegated "bob")
                                      zero)))
    by discriminate.
  split; [exact Hneq | ].
  destruct (emitter_only (fun b t _ n evs => (Ok (t + n), b, evs))
              (fun b t _ n evs => (Ok (t + n), b, evs))
              (mkRegistry (set_sender delegated "bob") zero)
              100 _VOTE_POLICY_OPOV zero zero Hneq)
    as [Hmint [_ [_ [Hmode _]]]].
  split; [exact Hmint | exact Hmode].
Defined.

Lemma is_emitter (st : state) :
  sender st = emitter st -> _assert_is_emitter st (sender st) = Ok tt.
Proof.
  intros Heq. unfold _assert_is_emitter. rewrite Heq, String.eqb_refl.
  reflexivity.
Qed.

(** For the emitter [set_vote_mode] accepts any integer: it returns the
    previous mode, the new one is read back, the ledger and the delegations
    are untouched, and setting the returned mode again restores the
    registry. *)
Theorem set_vote_mode_swaps (st : state) (mode : Z) :
  sender st = emitter st ->
  let st' := snd (set_vote_mode mode st) in
  fst (set_vote_mode mode st) = Ok (get_vote_mode st) /\
  get_vote_mode st' = mode /\
  balance_of st' = balance_of st /\
  total_supply st' = total_supply st /\
  delegations st' = delegations st /\
  set_vote_mode (get_vote_mode st) st' = (Ok mode, st).
Proof.
  intros Hemitter. unfold set_vote_mode, get_vote_mode.
  rewrite (is_emitter st Hemitter). simpl.
  repeat split; trivial.
  unfold _assert_is_emitter. simpl. rewrite Hemitter, String.eqb_refl.
  destruct st. reflexivity.
Qed.

(** The emitter of [test.py] switches to one person one vote and back. *)
Lemma set_vote_mode_swaps_witness :
  sender transferred = emitter transferred /\
  fst (set_vote_mode _VOTE_POLICY_OPOV transferred) = Ok _VOTE_POLICY_ODOV /\
  set_vote_mode _VOTE_POLICY_ODOV
    (snd (set_vote_mode _VOTE_POLICY_OPOV transferred))
  = (Ok _VOTE_POLICY_OPOV, transferred).
Proof.
  split; [reflexivity | ].
  destruct (set_vote_mode_swaps transferred _VOTE_POLICY_OPOV eq_refl)
    as [Hret [_ [_ [_ [_ Hback]]]]].
  split; [exact Hret | exact Hback].
Defined.

(** For the emitter [set_dividend] accepts any rate: it returns the
    previous one, the new one is read back, the token is untouched, and
    setting the returned rate again restores the registry. *)
Theorem set_dividend_swaps (g : registry) (rate : PyFloat.float) :
  sender (token g) = emitter (token g) ->
  let g' := snd (set_dividend rate g) in
  fst (set_dividend rate g) = Ok (get_dividend g) /\
  get_dividend g' = rate /\
  token g' = token g /\
  set_dividend (get_dividend g) g' = (Ok rate, g).
Proof.
  intros Hemitter. unfold set_dividend, get_dividend.
  rewrite (is_emitter (token g) Hemitter). simpl.
  rewrite (is_emitter (token g) Hemitter).
  repeat split; trivial. destruct g. reflexivity.
Qed.

(** The emitter of [test.py] sets the dividend to 0.05 and back to 0.0. *)
Lemma set_dividend_swaps_witness :
  let g := mkRegistry transferred zero in
  sender (token g) = emitter (token g) /\
  fst (set_dividend lit_0_05 g) = Ok zero /\
  set_dividend zero (snd (set_dividend lit_0_05 g)) = (Ok lit_0_05, g).
Proof.
  cbv zeta. split; [reflexivity | ].
  destruct (set_dividend_swaps (mkRegistry transferred zero) lit_0_05 eq_refl)
    as [Hret [_ [_ Hback]]].
  split; [exact Hret | exact Hback].
Defined.

(** [init] is open to every caller and in every registry: the caller
    becomes the emitter and passes the emitter's check, the name, the
    symbol and the total supply are those given, the caller's balance is
    the supply, and the other balances, the delegations and the vote policy
    stay as they were. In a module just loaded the caller is then the only
    holder, even with a supply of 0. *)
Theorem init_installs_caller (st : state) (supply mode : Z)
  (name_ symbol_ caller : string) :
  let st' := init supply name_ symbol_ st in
  (get_name st' = name_ /\ get_symbol st' = symbol_ /\
   get_total_supply st' = supply /\ get_decimals st' = 0) /\
  (emitter st' = sender st /\ sender st' = sender st /\
   fst (set_vote_mode mode st') = Ok (vote_mode st)) /\
  (get_balance st' (sender st) = supply /\
   (forall a, a <> sender st -> get_balance st' a = get_balance st a) /\
   delegations st' = delegations st /\ vote_mode st' = vote_mode st) /\
  (balance_of (init supply name_ symbol_ (loaded caller)) = [(caller, supply)]
   /\ get_total_shareholders (init supply name_ symbol_ (loaded caller)) = 1).
Proof.
  cbv zeta.
  assert (Hamount : supply * 10 ^ decimals = supply)
    by (unfold decimals; simpl; lia).
  unfold init. cbv zeta. rewrite !Hamount.
  unfold get_name, get_symbol, get_total_supply, get_decimals,
    get_balance, Base.Balances_get, Dict.get_default, set_vote_mode,
    _assert_is_emitter.
  simpl. rewrite String.eqb_refl, get_set_same.
  repeat split; trivial.
  intros a Ha. rewrite get_set_other by exact Ha. reflexivity.
Qed.

(** ** Stock split: what a call leaves behind *)

Lemma rescale_keys (accounts : list string) (f : PyFloat.float) :
  forall b : Dict.t Z,
    incl accounts (Dict.keys b) ->
    Dict.keys (fst (rescale accounts f b)) = Dict.keys b.
Proof.
  induction accounts as [| account rest IH]; intros b Hincl; simpl.
  - reflexivity.
  - assert (Hin : In account (Dict.keys b)) by (apply Hincl; left; reflexivity).
    destruct (scaled f (Dict.get_default b account 0)) as [n | e]; simpl.
    + rewrite IH; rewrite (keys_set_present b account n Hin); trivial.
      intros k Hk. apply Hincl. right. exact Hk.
    + reflexivity.
Qed.

Lemma keys_mem {V : Type} (d d' : Dict.t V) (k : string) :
  Dict.keys d' = Dict.keys d -> Dict.mem d' k = Dict.mem d k.
Proof.
  intros Hkeys.
  destruct (Dict.mem d k) eqn:Hm.
  - apply mem_in_keys. rewrite Hkeys. apply mem_in_keys. exact Hm.
  - destruct (Dict.mem d' k) eqn:Hm'; trivial.
    apply mem_in_keys in Hm'. rewrite Hkeys in Hm'. apply mem_in_keys in Hm'.
    congruence.
Qed.

Lemma keys_len {V : Type} (d d' : Dict.t V) :
  Dict.keys d' = Dict.keys d -> Dict.len d' = Dict.len d.
Proof.
  intros Hkeys. unfold Dict.len.
  rewrite <- (length_map fst d'), <- (length_map fst d).
  unfold Dict.keys in Hkeys. rewrite Hkeys. reflexivity.
Qed.

(** Whatever the caller, the factor and the outcome, [split_stock] adds no
    account and removes none: the holders, their number, the delegations,
    the vote policy and the emitter are those of before. *)
Theorem split_stock_never_changes_holders (st : state) (f : PyFloat.float) :
  let st' := snd (split_stock f st) in
  Dict.keys (balance_of st') = Dict.keys (balance_of st) /\
  get_total_shareholders st' = get_total_shareholders st /\
  (forall a, is_shareholder st' a = is_shareholder st a) /\
  delegations st' = delegations st /\
  vote_mode st' = vote_mode st /\
  emitter st' = emitter st /\
  sender st' = sender st.
Proof.
  cbv zeta.
  assert (Hkeys : Dict.keys (balance_of (snd (split_stock f st)))
                  = Dict.keys (balance_of st)).
  { unfold split_stock.
    destruct (_assert_is_emitter st (sender st)); [ | reflexivity].
    destruct (leb f zero); [reflexivity | ].
    pose proof (rescale_keys (Dict.keys (balance_of st)) f (balance_of st)
                  (incl_refl _)) as Hk.
    destruct (rescale (Dict.keys (balance_of st)) f (balance_of st))
      as [b [e | ]]; simpl in *; trivial.
    destruct (0 <? _); [ | destruct (_ <? 0)]; simpl; exact Hk. }
  split; [exact Hkeys | ].
  split; [apply keys_len; exact Hkeys | ].
  assert (Hrest : delegations (snd (split_stock f st)) = delegations st /\
                  vote_mode (snd (split_stock f st)) = vote_mode st /\
                  emitter (snd (split_stock f st)) = emitter st /\
                  sender (snd (split_stock f st)) = sender st).
  { unfold split_stock.
    destruct (_assert_is_emitter st (sender st)); [ | repeat split].
    destruct (leb f zero); [repeat split | ].
    destruct (rescale (Dict.keys (balance_of st)) f (balance_of st))
      as [b [e | ]]; simpl; [repeat split | ].
    destruct (0 <? _); [ | destruct (_ <? 0)]; simpl; repeat split. }
  split; [ | exact Hrest].
  intros a. unfold is_shareholder.
  assert (Hor : or_sender (snd (split_stock f st)) a = or_sender st a).
  { unfold or_sender. destruct Hrest as [_ [_ [_ Hs]]]. rewrite Hs.
    reflexivity. }
  rewrite Hor. apply keys_mem. exact Hkeys.
Qed.

Lemma rescale_prefix (f : PyFloat.float) (l2 : Dict.t Z) :
  forall (l1 b : Dict.t Z) (r : option exn),
    Dict.wf (l1 ++ l2) ->
    rescale (Dict.keys l2) f (l1 ++ l2) = (b, r) ->
    exists done new rest,
      l2 = done ++ rest /\
      Forall2 (rewritten f) done new /\
      b = l1 ++ new ++ rest /\
      match r with
      | None => rest = []
      | Some e => exists k v rest',
                    rest = (k, v) :: rest' /\ scaled f v = Raise e
      end.
Proof.
  unfold Dict.wf.
  induction l2 as [| [k v] l2 IH]; intros l1 b r Hwf Hrun; simpl in Hrun.
  - inversion Hrun; subst. exists [], [], []. repeat split; constructor.
  - assert (Hkeys := Hwf). rewrite keys_app in Hkeys. simpl in Hkeys.
    assert (Hnotin : ~ In k (Dict.keys l1)).
    { intros Hin. apply NoDup_remove_2 in Hkeys. apply Hkeys.
      apply in_or_app. left. exact Hin. }
    unfold Dict.get_default in Hrun.
    rewrite (get_app_notin l1 _ k Hnotin) in Hrun. simpl in Hrun.
    rewrite String.eqb_refl in Hrun.
    destruct (scaled f v) as [n | e] eqn:Hscaled.
    + rewrite (set_app_notin l1 _ k _ Hnotin) in Hrun. simpl in Hrun.
      rewrite String.eqb_refl in Hrun.
      change (l1 ++ (k, n) :: l2) with (l1 ++ [(k, n)] ++ l2) in Hrun.
      rewrite app_assoc in Hrun.
      apply IH in Hrun.
      * destruct Hrun as [done [new [rest [Hl2 [Hall [Hb Hr]]]]]].
        exists ((k, v) :: done), ((k, n) :: new), rest.
        split; [rewrite Hl2; reflexivity | ].
        split; [constructor; [split; [reflexivity | exact Hscaled] | exact Hall] | ].
        split; [rewrite Hb, <- app_assoc; reflexivity | exact Hr].
      * rewrite !keys_app. simpl. rewrite <- app_assoc. exact Hkeys.
    + inversion Hrun; subst.
      exists [], [], ((k, v) :: l2).
      split; [reflexivity | split; [constructor | split; [reflexivity | ]]].
      exists k, v, l2. split; [reflexivity | exact Hscaled].
Qed.

Lemma rewritten_keys (f : PyFloat.float) (old new : Dict.t Z) :
  Forall2 (rewritten f) old new -> Dict.keys new = Dict.keys old.
Proof.
  induction 1 as [| x y l l' [Hk _] _ IH]; simpl; [reflexivity | ].
  rewrite Hk, IH. reflexivity.
Qed.

(** A factor that passes the check and is a number is above zero. *)
Lemma passed_factor (f : PyFloat.float) :
  leb f zero = false -> f = S754_nan \/ ltb zero f = true.
Proof.
  destruct f as [[] | [] | | [] m e]; simpl; try discriminate; auto.
Qed.

Lemma scaled_nonneg (f : PyFloat.float) (v n : Z) :
  leb f zero = false -> 0 <= v -> scaled f v = Ok n -> 0 <= n.
Proof.
  intros Hf Hv. unfold scaled, mul_int.
  destruct (of_int v) as [x | e] eqn:Hx; simpl; [ | discriminate].
  pose proof (of_int_sign v x Hv Hx) as Hsx.
  destruct (passed_factor f Hf) as [Hnan | Hpos].
  - subst f. destruct x; simpl; discriminate.
  - pose proof (SFmul_sign x f Hsx Hpos) as Hsp.
    destruct (SFmul prec emax x f) as [s | s | | s m e]; simpl;
      try discriminate; intros H; inversion H; subst; [lia | ].
    simpl in Hsp. subst s. unfold trunc_finite.
    destruct e as [| q | q].
    + lia.
    + apply Z.mul_nonneg_nonneg; [lia | apply Z.pow_nonneg; lia].
    + apply Z.quot_pos; [lia | apply Z.pow_pos_nonneg; lia].
Qed.

Lemma scaled_raises (f : PyFloat.float) (v : Z) (e : exn) :
  scaled f v = Raise e -> e = OverflowError \/ e = NanToInteger.
Proof.
  unfold scaled, mul_int, of_int.
  destruct (binary_normalize prec emax v 0 false) as [s | s | | s m q];
    cbn [bind];
    try (intros H; inversion H; auto; fail);
    match goal with
    | |- context [SFmul ?p ?m ?x ?y] => destruct (SFmul p m x y)
    end; cbn [to_int]; intros H; inversion H; auto.
Qed.

(** Whenever [split_stock] returns, the caller was the emitter and the
    factor passed the check, every balance is [int(balance * factor)] of
    the balance before, the total returned is the sum of the new balances
    and is the total supply from then on, and balances that were not
    negative are not negative afterwards. *)
Theorem split_stock_returned (st st' : state) (f : PyFloat.float) (t : Z) :
  Dict.wf (balance_of st) ->
  split_stock f st = (Ok t, st') ->
  sender st = emitter st /\
  leb f zero = false /\
  Forall2 (rewritten f) (balance_of st) (balance_of st') /\
  t = sum_list (Dict.values (balance_of st')) /\
  get_total_supply st' = t /\
  (Forall (fun entry => 0 <= snd entry) (balance_of st) ->
   Forall (fun entry => 0 <= snd entry) (balance_of st')).
Proof.
  intros Hwf. unfold split_stock, _assert_is_emitter.
  destruct (String.eqb_spec (sender st) (emitter st)) as [Hemitter | ];
    [ | discriminate].
  destruct (leb f zero) eqn:Hf; [discriminate | ].
  destruct (rescale (Dict.keys (balance_of st)) f (balance_of st))
    as [b r] eqn:Hrun.
  destruct (rescale_prefix f (balance_of st) [] b r Hwf Hrun)
    as [done [new [rest [Hold [Hall [Hb Hr]]]]]].
  destruct r as [e | ]; [discriminate | ].
  subst rest. rewrite app_nil_r in Hold, Hb. simpl in Hb. subst done b.
  assert (Hsum : ledger_sum new = sum_list (Dict.values new)).
  { apply ledger_sum_values. unfold Dict.wf.
    rewrite (rewritten_keys f _ _ Hall). exact Hwf. }
  assert (Hnonneg : Forall (fun entry => 0 <= snd entry) (balance_of st) ->
                    Forall (fun entry => 0 <= snd entry) new).
  { clear Hrun Hsum Hwf. induction Hall as [| x y l l' [_ Hxy] _ IH];
      intros Hpos; constructor; inversion Hpos; subst.
    - apply (scaled_nonneg f (snd x)); assumption.
    - apply IH; assumption. }
  intros Hret.
  assert (Ht : t = ledger_sum new) by (inversion Hret; reflexivity).
  assert (Hst' : balance_of st' = new /\ total_supply st' = t).
  { inversion Hret as [[Ht' Hst']]. clear Hret Hst'.
    destruct (0 <? _); [ | destruct (_ <? 0)]; simpl; split; reflexivity. }
  destruct Hst' as [Hb' Ht']. rewrite Hb'. unfold get_total_supply.
  repeat split; trivial. rewrite Ht. exact Hsum.
Qed.

(** The split by 1.5 of holdings of 10 and 1. *)
Lemma split_stock_returned_witness :
  Dict.wf (balance_of small_holder) /\
  split_stock one_and_a_half small_holder
  = (Ok 16, snd (split_stock one_and_a_half small_holder)) /\
  16 = sum_list (Dict.values
                   (balance_of (snd (split_stock one_and_a_half small_holder)))).
Proof.
  assert (Hwf : Dict.wf (balance_of small_holder)).
  { unfold Dict.wf. simpl. repeat constructor; simpl; intuition discriminate. }
  assert (Hrun : split_stock one_and_a_half small_holder
                 = (Ok 16, snd (split_stock one_and_a_half small_holder)))
    by reflexivity.
  split; [exact Hwf | split; [exact Hrun | ]].
  destruct (split_stock_returned small_holder _ one_and_a_half 16 Hwf Hrun)
    as [_ [_ [_ [Hsum _]]]].
  exact Hsum.
Defined.

(** Whenever [split_stock] raises, the total supply and the notifications
    are those of before. Either the caller is not the emitter, or the
    factor is zero or below, and then nothing at all has changed; or the
    product for one account overflowed or was no number, and then the
    accounts before it in the ledger hold their new balance while that
    account and the following ones hold their old one. *)
Theorem split_stock_raised (st st' : state) (f : PyFloat.float) (e : exn) :
  Dict.wf (balance_of st) ->
  split_stock f st = (Raise e, st') ->
  total_supply st' = total_supply st /\
  events st' = events st /\
  ((e = NotEmitter (sender st) /\ sender st <> emitter st /\ st' = st) \/
   (e = InvalidSplitFactor /\ leb f zero = true /\ st' = st) \/
   ((e = OverflowError \/ e = NanToInteger) /\
    exists done new account balance rest,
      balance_of st = done ++ (account, balance) :: rest /\
      Forall2 (rewritten f) done new /\
      scaled f balance = Raise e /\
      balance_of st' = new ++ (account, balance) :: rest)).
Proof.
  intros Hwf. unfold split_stock, _assert_is_emitter.
  destruct (String.eqb_spec (sender st) (emitter st)) as [Hemitter | Hneq].
  - destruct (leb f zero) eqn:Hf.
    + intros H. inversion H; subst. repeat split. right. left.
      repeat split.
    + destruct (rescale (Dict.keys (balance_of st)) f (balance_of st))
        as [b r] eqn:Hrun.
      destruct (rescale_prefix f (balance_of st) [] b r Hwf Hrun)
        as [done [new [rest [Hold [Hall [Hb Hr]]]]]].
      destruct r as [e' | ]; [ | discriminate].
      destruct Hr as [k [v [rest' [Hrest Hscaled]]]].
      intros H. inversion H; subst. simpl. repeat split. right. right.
      split; [exact (scaled_raises f v e Hscaled) | ].
      exists done, new, k, v, rest'. repeat split; trivial.
  - intros H. inversion H; subst. repeat split. left. repeat split.
    exact Hneq.
Qed.

(** The split by 2 ** 1023 of holdings of 1 and 2. *)
Lemma split_stock_raised_witness :
  let st' := snd (split_stock two_pow_1023 two_holders) in
  Dict.wf (balance_of two_holders) /\
  split_stock two_pow_1023 two_holders = (Raise OverflowError, st') /\
  total_supply st' = total_supply two_holders /\
  events st' = events two_holders.
Proof.
  cbv zeta.
  assert (Hwf : Dict.wf (balance_of two_holders)).
  { unfold Dict.wf. simpl. repeat constructor; simpl; intuition discriminate. }
  assert (Hrun : split_stock two_pow_1023 two_holders
                 = (Raise OverflowError,
                    snd (split_stock two_pow_1023 two_holders)))
    by (vm_compute; reflexivity).
  split; [exact Hwf | split; [exact Hrun | ]].
  destruct (split_stock_raised two_holders _ two_pow_1023 OverflowError
              Hwf Hrun) as [Htotal [Hevents _]].
  split; [exact Htotal | exact Hevents].
Defined.

(** A split that returns raises one notification when the total supply
    changes and none when it does not: minted by the emitter for the
    increase, burnt by the emitter for the decrease, the amount being
    positive and the new supply the total returned. *)
Theorem split_stock_notifies_drift (st st' : state) (f : PyFloat.float) (t : Z) :
  split_stock f st = (Ok t, st') ->
  (total_supply st < t ->
   events st' = Minted (emitter st) (t - total_supply st) t :: events st) /\
  (t < total_supply st ->
   events st' = Burnt (emitter st) (total_supply st - t) t :: events st) /\
  (t = total_supply st -> events st' = events st).
Proof.
  unfold split_stock.
  destruct (_assert_is_emitter st (sender st)); [ | discriminate].
  destruct (leb f zero); [discriminate | ].
  destruct (rescale (Dict.keys (balance_of st)) f (balance_of st))
    as [b [e | ]]; [discriminate | ].
  simpl. intros H. inversion H as [[Ht Hst']]. clear H Hst'.
  destruct (Z.ltb_spec 0 (ledger_sum b - total_supply st)) as [Hup | Hup];
    [ | destruct (Z.ltb_spec (ledger_sum b - total_supply st) 0)
          as [Hdown | Hdown]];
    simpl; repeat split; intros Hcmp; try lia; trivial.
  f_equal. f_equal. lia.
Qed.

(** The split by 0.5 of holdings of 10 and 1 burns 6 of 11. *)
Lemma split_stock_notifies_drift_witness :
  let st' := snd (split_stock half small_holder) in
  split_stock half small_holder = (Ok 5, st') /\
  5 < total_supply small_holder /\
  events st' = [Burnt "Pikcio SA" 6 5].
Proof.
  cbv zeta.
  assert (Hrun : split_stock half small_holder
                 = (Ok 5, snd (split_stock half small_holder)))
    by reflexivity.
  assert (Hlt : 5 < total_supply small_holder) by reflexivity.
  split; [exact Hrun | split; [exact Hlt | ]].
  destruct (split_stock_notifies_drift small_holder _ half 5 Hrun)
    as [_ [Hburnt _]].
  exact (Hburnt Hlt).
Defined.

(** ** Conservation of shares and votes *)

Lemma sum_map_add {A : Type} (g h : A -> Z) (l : list A) :
  sum_list (map (fun x => g x + h x) l)
  = sum_list (map g l) + sum_list (map h l).
Proof. induction l as [| x l IH]; simpl; [reflexivity | rewrite IH; lia]. Qed.

Lemma sum_map_ext {A : Type} (g h : A -> Z) (l : list A) :
  (forall x, In x l -> g x = h x) ->
  sum_list (map g l) = sum_list (map h l).
Proof.
  intros Hext. f_equal. apply map_ext_in. exact Hext.
Qed.

Lemma sum_filter {A : Type} (f : A -> Z) (p : A -> bool) (l : list A) :
  sum_list (map f (filter p l))
  = sum_list (map (fun x => if p x then f x else 0) l).
Proof.
  induction l as [| x l IH]; simpl; [reflexivity | ].
  destruct (p x); simpl; rewrite IH; reflexivity.
Qed.

Lemma sum_ones {A : Type} (l : list A) :
  sum_list (map (fun _ => 1) l) = Z.of_nat (List.length l).
Proof.
  induction l as [| x l IH]; [reflexivity | ].
  cbn [map sum_list fold_right List.length]. unfold sum_list in IH.
  rewrite IH. lia.
Qed.

Lemma sum_exchange {A B : Type} (g : A -> B -> Z) (la : list A) (lb : list B) :
  sum_list (map (fun a => sum_list (map (g a) lb)) la)
  = sum_list (map (fun b => sum_list (map (fun a => g a b) la)) lb).
Proof.
  induction la as [| a la IH]; simpl.
  - symmetry. apply sum_list_zero.
  - rewrite IH.
    rewrite <- (sum_map_add (g a)
                  (fun b => sum_list (map (fun a' => g a' b) la)) lb).
    reflexivity.
Qed.

(** In a list without repetition one term is selected. *)
Lemma sum_select_in (l : list string) (y : string) (c : Z) :
  NoDup l -> In y l ->
  sum_list (map (fun x => if String.eqb y x then c else 0) l) = c.
Proof.
  induction l as [| x l IH]; intros Hnd Hin; simpl; [contradiction | ].
  inversion Hnd as [| x0 l0 Hnotin Hrest]; subst.
  destruct (String.eqb_spec y x) as [Heq | Hne].
  - subst x. rewrite (sum_map_ext _ (fun _ => 0)).
    + rewrite sum_list_zero. lia.
    + intros x Hx. destruct (String.eqb_spec y x); [subst; contradiction | ].
      reflexivity.
  - destruct Hin as [Heq | Hin]; [exfalso; apply Hne; symmetry; exact Heq | ].
    rewrite (IH Hrest Hin). lia.
Qed.

Lemma sum_select_out (l : list string) (y : string) (c : Z) :
  ~ In y l ->
  sum_list (map (fun x => if String.eqb y x then c else 0) l) = 0.
Proof.
  intros Hout. rewrite (sum_map_ext _ (fun _ => 0)).
  - apply sum_list_zero.
  - intros x Hx. destruct (String.eqb_spec y x); [subst; contradiction | ].
    reflexivity.
Qed.

(** What the holders hold in one level sums to what they own. *)
Lemma held_sum (f : string -> Z) (delegating : string -> bool)
  (delegate : string -> string) (H K : list string) :
  NoDup H -> NoDup K ->
  (forall a, In a H -> (delegating a = true <-> In a K)) ->
  (forall d, In d K -> In d H /\ In (delegate d) H /\ ~ In (delegate d) K) ->
  sum_list (map (held f delegating delegate K) H) = sum_list (map f H).
Proof.
  intros HH HK Hdel Hedge.
  set (own := fun a => if delegating a then 0 else f a).
  set (got := fun a d =>
                if delegating a then 0
                else if String.eqb (delegate d) a then f d else 0).
  rewrite (sum_map_ext _ (fun a => own a + sum_list (map (got a) K))).
  2:{ intros a _. unfold held, own, got. destruct (delegating a).
      - rewrite sum_list_zero. reflexivity.
      - rewrite sum_filter. reflexivity. }
  rewrite sum_map_add, sum_exchange.
  rewrite (sum_map_ext (fun d => sum_list (map (fun a => got a d) H)) f).
  2:{ intros d Hd. destruct (Hedge d Hd) as [_ [Hin Hout]].
      rewrite (sum_map_ext _ (fun a => if String.eqb (delegate d) a
                                       then f d else 0)).
      - apply sum_select_in; assumption.
      - intros a Ha. unfold got. destruct (delegating a) eqn:Hda; trivial.
        apply (Hdel a Ha) in Hda.
        destruct (String.eqb_spec (delegate d) a); [ | reflexivity].
        subst a. contradiction. }
  rewrite (sum_map_ext f (fun d => sum_list
                                     (map (fun a => if String.eqb d a
                                                    then f d else 0) H)) K).
  2:{ intros d Hd. destruct (Hedge d Hd) as [Hin _]. symmetry.
      apply sum_select_in; assumption. }
  rewrite <- (sum_exchange (fun a d => if String.eqb d a then f d else 0)).
  rewrite <- sum_map_add. apply sum_map_ext. intros a Ha. unfold own.
  rewrite (sum_map_ext _ (fun d => if String.eqb a d then f a else 0)).
  2:{ intros d _. rewrite String.eqb_sym.
      destruct (String.eqb_spec a d); [subst; reflexivity | reflexivity]. }
  destruct (delegating a) eqn:Hda.
  - rewrite sum_select_in; trivial. apply (Hdel a Ha). exact Hda.
  - rewrite sum_select_out; [lia | ]. intros Hin. apply (Hdel a Ha) in Hin.
    congruence.
Qed.

Section OneLevel.

Variable st : state.
Hypothesis Hlevel : one_level st.

Let holders : list string := Dict.keys (balance_of st).
Let edges : list string := Dict.keys (delegations st).
Let delegate (d : string) : string := Dict.get_default (delegations st) d "".
Let delegating (a : string) : bool := Dict.mem (delegations st) a.

Lemma holder_shareholder (a : string) : In a holders -> shareholder st a.
Proof.
  intros Ha. destruct Hlevel as [_ [_ [Hne _]]]. split.
  - rewrite Forall_forall in Hne. apply Hne. exact Ha.
  - apply mem_in_keys. exact Ha.
Qed.

Lemma edge_ends (d : string) :
  In d edges ->
  In d holders /\ In (delegate d) holders /\ ~ In (delegate d) edges.
Proof.
  intros Hd. destruct Hlevel as [_ [_ [_ Hedges]]].
  rewrite Forall_forall in Hedges.
  unfold delegate, Dict.get_default.
  destruct (Dict.get (delegations st) d) as [v | ] eqn:Hget.
  - apply get_some_in in Hget. exact (Hedges (d, v) Hget).
  - apply get_none_notin in Hget. contradiction.
Qed.

Lemma holder_delegating (a : string) :
  In a holders -> is_delegating st (Some a) = delegating a.
Proof.
  intros Ha. destruct (holder_shareholder a Ha) as [Hne _].
  unfold is_delegating, get_delegate, delegating.
  rewrite or_sender_given by exact Hne.
  destruct (Dict.mem (delegations st) a) eqn:Hmem.
  - apply mem_in_keys in Hmem. destruct (edge_ends a Hmem) as [_ [Hto _]].
    apply truthy_nonempty. exact (proj1 (holder_shareholder _ Hto)).
  - unfold Dict.mem in Hmem. unfold Dict.get_default.
    destruct (Dict.get (delegations st) a); [discriminate | reflexivity].
Qed.

Lemma holder_delegators (a : string) :
  In a holders -> Forall (shareholder st) (direct_delegators st a).
Proof.
  intros Ha. apply Forall_forall. intros d Hd.
  unfold direct_delegators, delegators_of in Hd. apply filter_In in Hd.
  destruct Hd as [Hd _]. apply holder_shareholder.
  exact (proj1 (edge_ends d Hd)).
Qed.

Lemma holder_shares (a : string) :
  In a holders ->
  get_shares st (Some a)
  = Ok (held (raw_balance st) delegating delegate edges a).
Proof.
  intros Ha. pose proof (holder_shareholder a Ha) as Hs.
  pose proof (holder_delegating a Ha) as Hdel. unfold held.
  destruct (delegating a).
  - apply get_shares_delegating; assumption.
  - rewrite (get_shares_not_delegating st a Hs Hdel (holder_delegators a Ha)).
    f_equal. apply Z.add_comm.
Qed.

Lemma holder_votes (a : string) :
  In a holders ->
  get_votes st (Some a)
  = Ok (if vote_mode st =? _VOTE_POLICY_ODOV
        then held (raw_balance st) delegating delegate edges a
        else held (fun _ => 1) delegating delegate edges a).
Proof.
  intros Ha. pose proof (holder_shareholder a Ha) as Hs.
  pose proof (holder_delegating a Ha) as Hdel.
  unfold get_votes. rewrite Hdel. unfold held at 1 2.
  destruct (delegating a) eqn:Hda; cbn [negb].
  - destruct (vote_mode st =? _VOTE_POLICY_ODOV); reflexivity.
  - destruct (vote_mode st =? _VOTE_POLICY_ODOV) eqn:Hmode.
    + apply Z.eqb_eq in Hmode.
      rewrite (get_delegated_votes_odov st a Hmode Hs (holder_delegators a Ha)).
      cbn [bind]. rewrite (get_organic_votes_odov st (Some a) Hmode).
      pose proof (holder_shares a Ha) as Hshares. unfold held in Hshares.
      rewrite Hda in Hshares. rewrite Hshares. reflexivity.
    + unfold get_delegated_votes, get_organic_votes.
      rewrite (shareholder_delegators st a Hs), Hmode. cbn [bind].
      rewrite (sum_results_ok _ (fun _ => 1)) by reflexivity.
      cbn [bind]. f_equal. apply Z.add_comm.
Qed.

Lemma held_total (f : string -> Z) :
  sum_list (map (held f delegating delegate edges) holders)
  = sum_list (map f holders).
Proof.
  destruct Hlevel as [Hwf [Hwfd _]].
  apply held_sum; trivial.
  - intros a _. unfold delegating. apply mem_in_keys.
  - exact edge_ends.
Qed.

End OneLevel.

(** In a registry where delegation has one level the effective shares of
    all holders sum to the sum of all balances: what a delegator gives up
    is counted once, for its delegate. *)
Theorem shares_are_conserved (st : state) :
  one_level st ->
  sum_results (fun a => get_shares st (Some a)) (Dict.keys (balance_of st))
  = Ok (sum_list (Dict.values (balance_of st))).
Proof.
  intros Hlevel.
  rewrite (sum_results_ok _ _ _ (holder_shares st Hlevel)).
  rewrite (held_total st Hlevel). f_equal.
  destruct Hlevel as [Hwf _].
  rewrite <- (get_each_key (balance_of st) 0 Hwf). reflexivity.
Qed.

Lemma one_level_delegated : one_level delegated.
Proof.
  unfold one_level, Dict.wf. simpl.
  repeat split; repeat constructor; simpl; intuition discriminate.
Qed.

(** alice 15 and bob 0 for balances of 10 and 5. *)
Lemma shares_are_conserved_witness :
  one_level delegated /\
  sum_results (fun a => get_shares delegated (Some a)) ["alice"; "bob"]
  = Ok 15.
Proof.
  split; [exact one_level_delegated | ].
  exact (shares_are_conserved delegated one_level_delegated).
Defined.

(** In a registry where delegation has one level the effective votes of
    all holders sum to the total of votes, under both policies (under the
    weight-proportional one, when the total supply is the sum of the
    balances). *)
Theorem votes_are_conserved (st : state) :
  one_level st ->
  (vote_mode st = _VOTE_POLICY_ODOV ->
   total_supply st = sum_list (Dict.values (balance_of st))) ->
  sum_results (fun a => get_votes st (Some a)) (Dict.keys (balance_of st))
  = Ok (get_total_votes st).
Proof.
  intros Hlevel Hsupply. unfold get_total_votes.
  assert (Hvotes := holder_votes st Hlevel).
  destruct (vote_mode st =? _VOTE_POLICY_ODOV) eqn:Hmode.
  - rewrite (sum_results_ok _ _ _ Hvotes).
    rewrite (held_total st Hlevel). f_equal.
    rewrite Hsupply by (apply Z.eqb_eq; exact Hmode).
    destruct Hlevel as [Hwf _].
    rewrite <- (get_each_key (balance_of st) 0 Hwf). reflexivity.
  - rewrite (sum_results_ok _ _ _ Hvotes).
    rewrite (held_total st Hlevel), sum_ones. unfold Dict.keys, Dict.len.
    rewrite length_map. reflexivity.
Qed.

(** The same registry under one person one vote: alice 2 and bob 0, of 2
    votes. *)
Lemma votes_are_conserved_witness :
  let st := set_mode delegated _VOTE_POLICY_OPOV in
  one_level st /\
  get_votes st (Some "alice") = Ok 2 /\
  get_votes st (Some "bob") = Ok 0 /\
  sum_results (fun a => get_votes st (Some a)) ["alice"; "bob"]
  = Ok (get_total_votes st).
Proof.
  cbv zeta.
  assert (Hlevel : one_level (set_mode delegated _VOTE_POLICY_OPOV))
    by exact one_level_delegated.
  split; [exact Hlevel | split; [reflexivity | split; [reflexivity | ]]].
  apply (votes_are_conserved (set_mode delegated _VOTE_POLICY_OPOV) Hlevel).
  intros Hmode. discriminate Hmode.
Defined.

(** ** Queries about addresses outside the ledger *)

(** The queries on shares, and the delegated votes and weight, raise the
    not-a-shareholder error for an address that is no shareholder (for the
    caller, when the address is omitted or empty). The effective votes,
    weight, majority and rights raise it too unless the address is
    delegating, in which case its votes are 0 with no check at all. *)
Theorem queries_need_a_shareholder (st : state) (address : option string) :
  is_shareholder st address = false ->
  let refused {A : Type} (r : result A) := r = Raise (NotAShareholder address) in
  (refused (get_delegators st address) /\
   refused (get_organic_shares st address) /\
   refused (get_delegated_shares st address) /\
   refused (get_shares st address) /\
   refused (get_delegated_votes st address) /\
   refused (get_delegated_weight st address)) /\
  (is_delegating st address = false ->
   refused (get_votes st address) /\
   refused (get_weight st address) /\
   refused (is_majority st address) /\
   refused (get_rights st address)) /\
  (is_delegating st address = true -> get_votes st address = Ok 0).
Proof.
  intros Hs. cbv zeta.
  assert (Hd : get_delegators st address = Raise (NotAShareholder address)).
  { unfold get_delegators, _assert_is_shareholder. rewrite Hs. reflexivity. }
  assert (Hdv : get_delegated_votes st address
                = Raise (NotAShareholder address)).
  { unfold get_delegated_votes. rewrite Hd. reflexivity. }
  split; [ | split].
  - unfold get_delegated_weight, get_delegated_shares, get_shares,
      get_organic_shares, _assert_is_shareholder.
    rewrite Hd, Hdv, Hs. repeat split; reflexivity.
  - intros Hdel.
    assert (Hv : get_votes st address = Raise (NotAShareholder address)).
    { unfold get_votes. rewrite Hdel, Hdv. reflexivity. }
    unfold get_rights, is_majority, get_weight. rewrite Hv.
    repeat split; reflexivity.
  - intros Hdel. unfold get_votes. rewrite Hdel. reflexivity.
Qed.

(** carol holds nothing in the registry of alice and bob. *)
Lemma queries_need_a_shareholder_witness :
  is_shareholder delegated (Some "carol") = false /\
  get_delegators delegated (Some "carol")
  = Raise (NotAShareholder (Some "carol")) /\
  get_shares delegated (Some "carol")
  = Raise (NotAShareholder (Some "carol")).
Proof.
  split; [reflexivity | ].
  destruct (queries_need_a_shareholder delegated (Some "carol") eq_refl)
    as [[Hd [_ [_ [Hshares _]]]] _].
  split; [exact Hd | exact Hshares].
Defined.

(** ** Delegation, majority and rights *)

Lemma rights_of_zero (s : bool) :
  ltb lit_0_5 (S754_zero s) = false /\ _get_rights (S754_zero s) = [].
Proof. destruct s; split; reflexivity. Qed.

(** An address that is delegating has no votes, shareholder or not. When
    the total of votes is not 0 its weight is a zero, it is no majority
    and it has no rights; when the total is 0 the three queries raise the
    division error. *)
Theorem delegating_has_no_power (st : state) (address : option string) :
  is_delegating st address = true ->
  get_votes st address = Ok 0 /\
  (get_total_votes st <> 0 ->
   (exists s, get_weight st address = Ok (S754_zero s)) /\
   is_majority st address = Ok false /\
   get_rights st address = Ok []) /\
  (get_total_votes st = 0 ->
   get_weight st address = Raise ZeroDivisionError /\
   is_majority st address = Raise ZeroDivisionError /\
   get_rights st address = Raise ZeroDivisionError).
Proof.
  intros Hdel.
  assert (Hv : get_votes st address = Ok 0)
    by (unfold get_votes; rewrite Hdel; reflexivity).
  split; [exact Hv | ].
  unfold is_majority, get_rights, get_weight. rewrite Hv. cbn [bind].
  split; intros Htotal.
  - assert (Hw : truediv_int 0 (get_total_votes st)
                 = Ok (S754_zero (get_total_votes st <? 0))).
    { unfold truediv_int. destruct (get_total_votes st); [lia | | ];
        reflexivity. }
    rewrite Hw. cbn [bind].
    destruct (rights_of_zero (get_total_votes st <? 0)) as [Hhalf Hrights].
    rewrite Hhalf, Hrights. repeat split. eexists. reflexivity.
  - rewrite Htotal. repeat split.
Qed.

(** bob, who delegates to alice. *)
Lemma delegating_has_no_power_witness :
  is_delegating delegated (Some "bob") = true /\
  get_total_votes delegated <> 0 /\
  get_votes delegated (Some "bob") = Ok 0 /\
  get_rights delegated (Some "bob") = Ok [].
Proof.
  assert (Htotal : get_total_votes delegated <> 0) by discriminate.
  split; [reflexivity | split; [exact Htotal | ]].
  destruct (delegating_has_no_power delegated (Some "bob") eq_refl)
    as [Hv [Hpos _]].
  split; [exact Hv | exact (proj2 (proj2 (Hpos Htotal)))].
Defined.

Lemma ltb_leb (a b : PyFloat.float) : ltb a b = true -> leb a b = true.
Proof.
  unfold ltb, leb, SFltb, SFleb.
  destruct (SFcompare a b) as [[ | | ] | ]; trivial; discriminate.
Qed.

(** A weight above one half reaches every threshold of the table. *)
Lemma all_rights_above_half (w : PyFloat.float) :
  ltb lit_0_5 w = true ->
  _get_rights w = List.concat (map snd _SHAREHOLDERS_RIGHTS).
Proof.
  intros Hw. apply ltb_leb in Hw.
  assert (H1 := ltb_leb_trans lit_0_05 lit_0_5 w eq_refl eq_refl Hw).
  assert (H2 := ltb_leb_trans lit_0_1 lit_0_5 w eq_refl eq_refl Hw).
  assert (H3 := ltb_leb_trans lit_0_15 lit_0_5 w eq_refl eq_refl Hw).
  assert (H4 := ltb_leb_trans lit_0_25 lit_0_5 w eq_refl eq_refl Hw).
  unfold _get_rights, _SHAREHOLDERS_RIGHTS, chain_rights.
  rewrite H1, H2, H3, H4. reflexivity.
Qed.

(** An address that is a majority has every right of the table, all eight
    of them; an address that is an organic majority has every organic
    right. *)
Theorem majority_has_all_rights (st : state) (address : option string) :
  (is_majority st address = Ok true ->
   get_rights st address = Ok (List.concat (map snd _SHAREHOLDERS_RIGHTS))) /\
  (is_organic_majority st address = Ok true ->
   get_organic_rights st address
   = Ok (List.concat (map snd _SHAREHOLDERS_RIGHTS))) /\
  List.length (List.concat (map snd _SHAREHOLDERS_RIGHTS)) = 8%nat.
Proof.
  unfold is_majority, get_rights, is_organic_majority, get_organic_rights.
  split; [ | split; [ | reflexivity]].
  - destruct (get_weight st address) as [w | e]; cbn [bind];
      [ | discriminate].
    intros H. inversion H as [Hw].
    rewrite (all_rights_above_half w Hw). reflexivity.
  - destruct (get_organic_weight st address) as [w | e]; cbn [bind];
      [ | discriminate].
    intros H. inversion H as [Hw].
    rewrite (all_rights_above_half w Hw). reflexivity.
Qed.

(** The emitter of [test.py], with 11,800,000 of 13,000,000 shares. *)
Lemma majority_has_all_rights_witness :
  is_majority transferred (Some "Pikcio SA") = Ok true /\
  get_rights transferred (Some "Pikcio SA")
  = Ok (List.concat (map snd _SHAREHOLDERS_RIGHTS)).
Proof.
  assert (Hmaj : is_majority transferred (Some "Pikcio SA") = Ok true)
    by reflexivity.
  split; [exact Hmaj | ].
  exact (proj1 (majority_has_all_rights transferred (Some "Pikcio SA")) Hmaj).
Defined.

(** ** Delegations that nothing forbids *)

(** Under one person one vote a shareholder that is not delegating has one
    vote plus one for every delegation edge that points to it, whether the
    delegator holds shares or not. *)
Theorem opov_votes_count_delegators (st : state) (address : option string) :
  vote_mode st <> _VOTE_POLICY_ODOV ->
  is_shareholder st address = true ->
  is_delegating st address = false ->
  get_votes st address
  = Ok (Z.of_nat (List.length (delegators_of st address)) + 1).
Proof.
  intros Hmode Hs Hdel. apply Z.eqb_neq in Hmode.
  unfold get_votes, get_delegated_votes, get_delegators,
    _assert_is_shareholder, get_organic_votes.
  rewrite Hdel, Hs, Hmode. cbn [negb bind].
  rewrite (sum_results_ok _ (fun _ => 1)) by reflexivity.
  cbn [bind]. rewrite sum_ones. reflexivity.
Qed.

(** alice is the only holder and eve, who holds nothing, delegates to her:
    alice has 2 votes of a total of 1. *)
Lemma opov_votes_count_delegators_witness :
  let st := set_mode dangling _VOTE_POLICY_OPOV in
  vote_mode st <> _VOTE_POLICY_ODOV /\
  is_shareholder st (Some "alice") = true /\
  is_delegating st (Some "alice") = false /\
  get_votes st (Some "alice") = Ok 2 /\
  get_total_votes st = 1.
Proof.
  cbv zeta.
  assert (Hmode : vote_mode (set_mode dangling _VOTE_POLICY_OPOV)
                  <> _VOTE_POLICY_ODOV) by discriminate.
  split; [exact Hmode | split; [reflexivity | split; [reflexivity | ]]].
  split; [ | reflexivity].
  exact (opov_votes_count_delegators (set_mode dangling _VOTE_POLICY_OPOV)
           (Some "alice") Hmode eq_refl eq_refl).
Defined.

(** The sum of organic shares stops at the first address that is no
    shareholder. *)
Lemma sum_organic_shares_stops (st : state) (ds : list string) (d' : string) :
  find (fun x => negb (is_shareholder st (Some x))) ds = Some d' ->
  sum_results (fun addr => get_organic_shares st (Some addr)) ds
  = Raise (NotAShareholder (Some d')).
Proof.
  induction ds as [| x ds IH]; cbn [find]; [discriminate | ].
  cbn [sum_results]. unfold get_organic_shares at 1, _assert_is_shareholder.
  destruct (is_shareholder st (Some x)) eqn:Hx; cbn [negb bind].
  - intros Hfind. rewrite (IH Hfind). reflexivity.
  - intros Hfind. inversion Hfind. reflexivity.
Qed.

(** The delegated and the effective shares of a shareholder that is not
    delegating raise the not-a-shareholder error as soon as one address
    that holds nothing has delegated to it, and the error names the first
    such address among its delegators: the delegators listed before it are
    shareholders. *)
Theorem dangling_delegator_blocks_shares (st : state) (a d : string) :
  is_shareholder st (Some a) = true ->
  is_delegating st (Some a) = false ->
  In d (delegators_of st (Some a)) ->
  is_shareholder st (Some d) = false ->
  exists before first after,
    delegators_of st (Some a) = before ++ first :: after /\
    Forall (fun x => is_shareholder st (Some x) = true) before /\
    is_shareholder st (Some first) = false /\
    find (fun x => negb (is_shareholder st (Some x)))
      (delegators_of st (Some a)) = Some first /\
    get_delegated_shares st (Some a) = Raise (NotAShareholder (Some first)) /\
    get_shares st (Some a) = Raise (NotAShareholder (Some first)).
Proof.
  intros Hs Hdel Hin Hd.
  assert (Hsplit :
            forall ds, In d ds ->
              exists before first after,
                ds = before ++ first :: after /\
                Forall (fun x => is_shareholder st (Some x) = true) before /\
                is_shareholder st (Some first) = false /\
                find (fun x => negb (is_shareholder st (Some x))) ds
                = Some first).
  { induction ds as [| x ds IH]; intros Hds; [contradiction | ].
    cbn [find]. destruct (is_shareholder st (Some x)) eqn:Hx; cbn [negb].
    - destruct Hds as [Heq | Hds]; [subst; congruence | ].
      destruct (IH Hds) as [before [first [after [Heq [Hall [Hf Hfind]]]]]].
      exists (x :: before), first, after. rewrite Heq.
      split; [reflexivity | ].
      split; [constructor; assumption | ].
      split; [exact Hf | rewrite <- Heq; exact Hfind].
    - exists [], x, ds.
      split; [reflexivity | ].
      split; [constructor | ].
      split; [exact Hx | reflexivity]. }
  destruct (Hsplit _ Hin) as [before [first [after [Heq [Hall [Hf Hfind]]]]]].
  exists before, first, after.
  assert (Hds : get_delegated_shares st (Some a)
                = Raise (NotAShareholder (Some first))).
  { unfold get_delegated_shares, get_delegators, _assert_is_shareholder.
    rewrite Hs. cbn [bind]. apply sum_organic_shares_stops. exact Hfind. }
  repeat split; trivial.
  unfold get_shares, _assert_is_shareholder. rewrite Hs, Hdel, Hds.
  reflexivity.
Qed.

(** bob, then mallory and eve, delegate to alice; mallory and eve hold
    nothing, and the error names mallory. *)
Lemma dangling_delegator_blocks_shares_witness :
  is_shareholder two_dangling (Some "alice") = true /\
  is_delegating two_dangling (Some "alice") = false /\
  delegators_of two_dangling (Some "alice") = ["bob"; "mallory"; "eve"] /\
  In "eve" (delegators_of two_dangling (Some "alice")) /\
  is_shareholder two_dangling (Some "eve") = false /\
  get_delegated_shares two_dangling (Some "alice")
  = Raise (NotAShareholder (Some "mallory")) /\
  get_shares two_dangling (Some "alice")
  = Raise (NotAShareholder (Some "mallory")).
Proof.
  assert (Hin : In "eve" (delegators_of two_dangling (Some "alice")))
    by (right; right; left; reflexivity).
  split; [reflexivity | split; [reflexivity | split; [reflexivity | ]]].
  split; [exact Hin | split; [reflexivity | ]].
  destruct (dangling_delegator_blocks_shares two_dangling "alice" "eve"
              eq_refl eq_refl Hin eq_refl)
    as [before [first [after [_ [_ [_ [Hfind [Hds Hshares]]]]]]]].
  change (find (fun x => negb (is_shareholder two_dangling (Some x)))
            (delegators_of two_dangling (Some "alice")))
    with (Some "mallory") in Hfind.
  inversion Hfind as [Hfirst]. rewrite <- Hfirst in Hds, Hshares.
  split; [exact Hds | exact Hshares].
Defined.

(** A shareholder may delegate to itself: the call succeeds, the caller
    becomes its own delegator, and its effective shares and votes are 0
    from then on, its balance being unchanged. *)
Theorem self_delegation_gives_up_power (st : state) :
  sender st <> "" ->
  is_shareholder st None = true ->
  let self := sender st in
  let st' := snd (set_delegate self st) in
  fst (set_delegate self st) = Ok (get_delegate st None) /\
  get_delegate st' (Some self) = self /\
  In self (delegators_of st' (Some self)) /\
  get_balance st' self = get_balance st self /\
  get_shares st' (Some self) = Ok 0 /\
  get_votes st' (Some self) = Ok 0.
Proof.
  intros Hne Hs. cbv zeta.
  unfold set_delegate. rewrite (truthy_nonempty _ Hne). cbn [fst snd].
  set (st' := set_delegations st
                (Dict.set (delegations st) (sender st) (sender st))).
  assert (Hget : get_delegate st' (Some (sender st)) = sender st).
  { unfold get_delegate, Dict.get_default.
    rewrite or_sender_given by exact Hne. unfold st'. simpl.
    rewrite get_set_same. reflexivity. }
  assert (Hdel : is_delegating st' (Some (sender st)) = true).
  { unfold is_delegating. rewrite Hget. apply truthy_nonempty. exact Hne. }
  assert (Hs' : is_shareholder st' (Some (sender st)) = true).
  { unfold is_shareholder in *. rewrite or_sender_given by exact Hne.
    exact Hs. }
  split; [reflexivity | split; [exact Hget | split; [ | split;
    [reflexivity | split]]]].
  - apply (delegators_of_iff st' (sender st) (sender st) Hne).
    unfold get_delegate in Hget. rewrite or_sender_given in Hget by exact Hne.
    exact Hget.
  - unfold get_shares, _assert_is_shareholder. rewrite Hs', Hdel.
    reflexivity.
  - unfold get_votes. rewrite Hdel. reflexivity.
Qed.

(** alice, who has 15 effective shares, delegates to herself. *)
Lemma self_delegation_gives_up_power_witness :
  sender delegated <> "" /\
  is_shareholder delegated None = true /\
  get_shares delegated (Some "alice") = Ok 15 /\
  get_shares (snd (set_delegate "alice" delegated)) (Some "alice") = Ok 0.
Proof.
  assert (Hne : sender delegated <> "") by discriminate.
  split; [exact Hne | split; [reflexivity | split; [reflexivity | ]]].
  destruct (self_delegation_gives_up_power delegated Hne eq_refl)
    as [_ [_ [_ [_ [Hshares _]]]]].
  exact Hshares.
Defined.
